(** * Pixel Pitch: pricing, checkout, pixel assignment and query surface

    A shallow embedding of the Express server (pricing table, the
    [/api/pixel-pitch/...] routes), of the seeding script, of the return
    handling of the pitch page and of the Next.js checkout route, followed
    by the properties established about them. *)

From Stdlib Require Import List String Ascii Bool Arith ZArith Lia.
From Stdlib Require Import Permutation Sorted.
From Stdlib Require Import PrimFloat.
Import ListNotations.

Local Open Scope string_scope.
Local Open Scope list_scope.

(** ** JavaScript values

    Only what the handlers inspect is kept: the primitive kinds, with
    numbers as IEEE-754 doubles, and opaque references for objects and
    functions.  A string is a sequence of code units; the embedding covers
    the code units below 256. *)
Module JS.

Inductive value : Type :=
| VUndefined
| VNull
| VBool (b : bool)
| VNumber (x : float)
| VString (s : string)
| VObject (ref : string)
| VFunction (ref : string).

(** [typeof v] *)
Definition typeof (v : value) : string :=
  match v with
  | VUndefined => "undefined"
  | VNull => "object"
  | VBool _ => "boolean"
  | VNumber _ => "number"
  | VString _ => "string"
  | VObject _ => "object"
  | VFunction _ => "function"
  end.

(** ToBoolean: [undefined], [null], [false], [0], [NaN] and the empty string
    are falsy; everything else, every object and function included, is
    truthy. *)
Definition truthy (v : value) : bool :=
  match v with
  | VUndefined | VNull => false
  | VBool b => b
  | VNumber x => negb (PrimFloat.eqb x 0%float || PrimFloat.is_nan x)
  | VString s => negb (String.eqb s "")
  | VObject _ | VFunction _ => true
  end.

(** [a || b] *)
Definition or (a b : value) : value := if truthy a then a else b.

(** ToNumber, for the values the relational operator below is applied to:
    objects and functions convert through their string form, which is not
    numeric.  A string would have to be parsed; none reaches the operator,
    so strings are left without a number. *)
Definition to_number_opt (v : value) : option float :=
  match v with
  | VNumber x => Some x
  | VBool true => Some 1%float
  | VBool false => Some 0%float
  | VNull => Some 0%float
  | VUndefined => Some nan
  | VObject _ | VFunction _ => Some nan
  | VString _ => None
  end.

(** [a > n] for a numeric literal [n]; a comparison with NaN is false. *)
Definition gt_number (a : value) (n : float) : bool :=
  match to_number_opt a with
  | Some x => PrimFloat.ltb n x
  | None => false
  end.

(** [String.prototype.toLowerCase] on one code unit below 256: the Latin
    capital letters and the capitals of the Latin-1 supplement (U+00C0 to
    U+00DE, the multiplication sign U+00D7 apart) move up by 32. *)
Definition lower_unit (c : ascii) : ascii :=
  let n := nat_of_ascii c in
  if (((65 <=? n) && (n <=? 90))
      || ((192 <=? n) && (n <=? 222) && negb (n =? 215)))%nat
  then ascii_of_nat (n + 32)
  else c.

Fixpoint toLowerCase (s : string) : string :=
  match s with
  | EmptyString => EmptyString
  | String c r => String (lower_unit c) (toLowerCase r)
  end.

(** Properties of an object, as an association list. *)
Definition props := list (string * value).

Fixpoint lookup (k : string) (ps : props) : option value :=
  match ps with
  | [] => None
  | (k', v) :: r => if String.eqb k k' then Some v else lookup k r
  end.

(** The properties every object literal inherits from [Object.prototype].
    [__proto__] is an accessor whose getter yields the prototype of the
    receiver, here [Object.prototype] itself. *)
Definition Object_prototype : props :=
  [ ("constructor", VFunction "Object");
    ("__defineGetter__", VFunction "__defineGetter__");
    ("__defineSetter__", VFunction "__defineSetter__");
    ("hasOwnProperty", VFunction "hasOwnProperty");
    ("__lookupGetter__", VFunction "__lookupGetter__");
    ("__lookupSetter__", VFunction "__lookupSetter__");
    ("isPrototypeOf", VFunction "isPrototypeOf");
    ("propertyIsEnumerable", VFunction "propertyIsEnumerable");
    ("toString", VFunction "toString");
    ("valueOf", VFunction "valueOf");
    ("__proto__", VObject "Object.prototype");
    ("toLocaleString", VFunction "toLocaleString") ].

(** [obj[k]] for an object literal with own properties [own]: the own
    property when there is one, else the inherited one, else [undefined]. *)
Definition get (own : props) (k : string) : value :=
  match lookup k own with
  | Some v => v
  | None =>
      match lookup k Object_prototype with
      | Some v => v
      | None => VUndefined
      end
  end.

End JS.

(** ** The document store

    The collections the server and the seeding script share.  A collection
    is the list of its documents in natural (insertion) order; [next_oid] is
    the supply of fresh ObjectIds. *)
Definition ObjectId := nat.

Module Canvas.
Record t := make { _id : ObjectId }.
End Canvas.

Module Pixel.
Record t := make {
  _id : ObjectId;
  position : Z;
  color : string;
  canvas : ObjectId
}.
Definition set_color (p : t) (c : string) : t :=
  make (_id p) (position p) c (canvas p).
End Pixel.

Module Assignment.
(** The fields the assign route hands to [Assignment.create], with the
    document's own [_id] and its [createdAt] timestamp.  The schema of
    [models/assignment] declares [pixelId] and [color]; [position] is
    declared by the schema the server falls back to. *)
Record t := make {
  _id : ObjectId;
  pixelId : ObjectId;
  color : string;
  position : Z;
  createdAt : Z
}.
End Assignment.

Module Store.

Record t := make {
  canvases : list Canvas.t;
  pixels : list Pixel.t;
  assignments : list Assignment.t;
  next_oid : ObjectId
}.

Definition empty : t := make [] [] [] 0.

(** An awaited store call either returns or throws; what was written before
    a throw stays written. *)
Inductive outcome (A : Type) : Type :=
| Returned (a : A)
| Thrown (err : string).
Arguments Returned {A} a.
Arguments Thrown {A} err.

Definition M (A : Type) : Type := t -> outcome A * t.

Definition ret {A} (a : A) : M A := fun s => (Returned a, s).

Definition bind {A B} (m : M A) (k : A -> M B) : M B :=
  fun s =>
    match m s with
    | (Returned a, s') => k a s'
    | (Thrown e, s') => (Thrown e, s')
    end.

Definition throw {A} (e : string) : M A := fun s => (Thrown e, s).

(** A route handler always answers: its outermost statement is a
    [try]/[catch] whose two arms both respond. *)
Definition respond {A} (body : M A) (handler : string -> A) : t -> A * t :=
  fun s =>
    match body s with
    | (Returned a, s') => (a, s')
    | (Thrown e, s') => (handler e, s')
    end.

(** An awaited call that throws when the store is unavailable. *)
Definition await {A} (fails : bool) (call : M A) : M A :=
  if fails then throw "store unavailable" else call.

End Store.

Declare Scope store_scope.
Delimit Scope store_scope with store.
Notation "x <- m ;; k" := (Store.bind m (fun x => k))
  (at level 61, m at next level, right associativity) : store_scope.
Notation "m ;;; k" := (Store.bind m (fun _ => k))
  (at level 61, right associativity) : store_scope.

(** ** Sorting, as the store's [sort] stage does it

    [sort_by leb] orders a list so that [leb] holds between neighbours. *)
Section Sorting.
Context {A : Type} (leb : A -> A -> bool).

Fixpoint insert_by (a : A) (l : list A) : list A :=
  match l with
  | [] => [a]
  | b :: r => if leb a b then a :: b :: r else b :: insert_by a r
  end.

Fixpoint sort_by (l : list A) : list A :=
  match l with
  | [] => []
  | a :: r => insert_by a (sort_by r)
  end.

End Sorting.

(** Neighbours of a list sorted by [leb] are related so. *)
Definition ordered_by {A : Type} (leb : A -> A -> bool) (a b : A) : Prop :=
  leb a b = true.

Module Queries.
Local Open Scope store_scope.

(** [Pixel.countDocuments()] *)
Definition Pixel_countDocuments : Store.M nat :=
  fun s => (Store.Returned (List.length (Store.pixels s)), s).

(** [Pixel.countDocuments({ canvas })] *)
Definition Pixel_countDocuments_canvas (c : ObjectId) : Store.M nat :=
  fun s =>
    (Store.Returned
       (List.length (filter (fun p => Nat.eqb (Pixel.canvas p) c) (Store.pixels s))),
     s).

(** [Pixel.findOne().skip(n)]: the document after the first [n] in natural
    order, [null] when there are not that many. *)
Definition Pixel_findOne_skip (n : nat) : Store.M (option Pixel.t) :=
  fun s => (Store.Returned (nth_error (Store.pixels s) n), s).

(** [Pixel.find().sort({ position: 1 }).lean()] *)
Definition Pixel_find_sort_position : Store.M (list Pixel.t) :=
  fun s =>
    (Store.Returned
       (sort_by (fun p q => Z.leb (Pixel.position p) (Pixel.position q))
          (Store.pixels s)),
     s).

(** [pixel.save()]: the stored document with the same [_id] takes the
    fields of [p]. *)
Definition Pixel_save (p : Pixel.t) : Store.M unit :=
  fun s =>
    (Store.Returned tt,
     Store.make (Store.canvases s)
       (map (fun q => if Nat.eqb (Pixel._id q) (Pixel._id p) then p else q)
          (Store.pixels s))
       (Store.assignments s) (Store.next_oid s)).

(** [Pixel.insertMany(docs)]: every document gets a fresh [_id] and goes to
    the end of the collection. *)
Fixpoint Pixel_insert_each (docs : list (Z * string * ObjectId)) (oid : ObjectId)
  : list Pixel.t :=
  match docs with
  | [] => []
  | (pos, col, cv) :: r => Pixel.make oid pos col cv :: Pixel_insert_each r (S oid)
  end.

Definition Pixel_insertMany (docs : list (Z * string * ObjectId))
  : Store.M (list Pixel.t) :=
  fun s =>
    let inserted := Pixel_insert_each docs (Store.next_oid s) in
    (Store.Returned inserted,
     Store.make (Store.canvases s) (Store.pixels s ++ inserted)
       (Store.assignments s) (Store.next_oid s + List.length docs)).

(** [Assignment.create({ pixelId, color, position })] at clock reading
    [now]. *)
Definition Assignment_create (now : Z) (pixelId : ObjectId) (color : string)
  (position : Z) : Store.M Assignment.t :=
  fun s =>
    let a := Assignment.make (Store.next_oid s) pixelId color position now in
    (Store.Returned a,
     Store.make (Store.canvases s) (Store.pixels s)
       (Store.assignments s ++ [a]) (S (Store.next_oid s))).

(** [Assignment.find({}).sort({ createdAt: -1 }).limit(n).lean()] *)
Definition Assignment_find_recent (n : nat) : Store.M (list Assignment.t) :=
  fun s =>
    (Store.Returned
       (firstn n
          (sort_by
             (fun a b => Z.leb (Assignment.createdAt b) (Assignment.createdAt a))
             (Store.assignments s))),
     s).

(** [Canvas.findOne()] *)
Definition Canvas_findOne : Store.M (option Canvas.t) :=
  fun s => (Store.Returned (hd_error (Store.canvases s)), s).

(** [Canvas.create({})] *)
Definition Canvas_create : Store.M Canvas.t :=
  fun s =>
    let c := Canvas.make (Store.next_oid s) in
    (Store.Returned c,
     Store.make (Store.canvases s ++ [c]) (Store.pixels s)
       (Store.assignments s) (S (Store.next_oid s))).

End Queries.

(** ** The seeding script *)
Module Seed.
Local Open Scope store_scope.

(** Which awaited call of [run] throws, if any.  A bulk insert that fails
    has stored the documents that came before the failing one. *)
Inductive Fault : Type :=
| NoFault
| ConnectFails
| CanvasFindFails
| CanvasCreateFails
| CountFails
| InsertFails (stored : nat).

(** [MONGODB_URI] is the environment variable; [canvasSize] is exported by
    [utils/common], which the script imports, and is taken as given. *)
Record Env := make_env {
  MONGODB_URI : option string;
  canvasSize : nat;
  fault : Fault
}.

Definition is_fault (f g : Fault) : bool :=
  match f, g with
  | ConnectFails, ConnectFails
  | CanvasFindFails, CanvasFindFails
  | CanvasCreateFails, CanvasCreateFails
  | CountFails, CountFails => true
  | _, _ => false
  end.

Definition missing (v : option string) : bool :=
  match v with
  | None => true
  | Some u => String.eqb u ""
  end.

(** The documents the loop pushes: positions [0] to [total - 1], all white
    to start. *)
Definition docs (total : nat) (canvas : ObjectId) : list (Z * string * ObjectId) :=
  map (fun pos => (Z.of_nat pos, "#ffffff", canvas)) (seq 0 total).

(** [run()], returning the exit code of the process. *)
Definition run (env : Env) : Store.t -> nat * Store.t :=
  Store.respond
    (if missing (MONGODB_URI env) then Store.ret 1
     else
       Store.await (is_fault (fault env) ConnectFails) (Store.ret tt) ;;;
       found <- Store.await (is_fault (fault env) CanvasFindFails)
                  Queries.Canvas_findOne ;;
       canvas <- match found with
                 | None => Store.await (is_fault (fault env) CanvasCreateFails)
                             Queries.Canvas_create
                 | Some c => Store.ret c
                 end ;;
       existing <- Store.await (is_fault (fault env) CountFails)
                     (Queries.Pixel_countDocuments_canvas (Canvas._id canvas)) ;;
       if (0 <? existing)%nat then Store.ret 0
       else
         let total := (canvasSize env * canvasSize env)%nat in
         match fault env with
         | InsertFails stored =>
             Queries.Pixel_insertMany
               (firstn stored (docs total (Canvas._id canvas))) ;;;
             Store.throw "insert failed"
         | _ =>
             Queries.Pixel_insertMany (docs total (Canvas._id canvas)) ;;;
             Store.ret 0
         end)
    (fun _ => 1).

End Seed.

(** ** The Express server *)
Module Server.
Local Open Scope store_scope.

(** *** Rare color pricing *)

(** cents: 50 = $0.50, 200 = $2.00, 500 = $5.00 *)
Definition RARE_PRICE_MAP : JS.props :=
  [ ("#ffd700", JS.VNumber 500%float);
    ("#00ffff", JS.VNumber 200%float);
    ("#ff00ff", JS.VNumber 200%float) ].

Definition getPriceForColor (color : JS.value) : JS.value :=
  if negb (JS.truthy color) || negb (String.eqb (JS.typeof color) "string")
  then JS.VNumber 50%float
  else
    match color with
    | JS.VString s =>
        let c := JS.toLowerCase s in
        JS.or (JS.get RARE_PRICE_MAP c) (JS.VNumber 50%float)
    | _ => JS.VNumber 50%float
    end.

Inductive Body : Type :=
| Error (error : string)
| Pixels (docs : list Pixel.t)
| Assignments (docs : list Assignment.t)
| Assigned (color : string) (id : ObjectId) (position x y : Z)
| Session (id url : string).

Record Response := json { status : nat; body : Body }.

Definition quote : string := String (ascii_of_nat 34) "".

Definition color_required : string :=
  "Color is required (e.g. " ++ quote ++ "#FF0000" ++ quote ++ ")".

(** The guard [!color || typeof color !== "string"] both posting routes
    start with: [None] when it rejects, the string otherwise. *)
Definition required_string (color : JS.value) : option string :=
  if negb (JS.truthy color) || negb (String.eqb (JS.typeof color) "string")
  then None
  else
    match color with
    | JS.VString s => Some s
    | _ => None
    end.

(** *** GET /api/pixel-pitch/all *)
Definition all (fails : bool) : Store.t -> Response * Store.t :=
  Store.respond
    (pixels <- Store.await fails Queries.Pixel_find_sort_position ;;
     Store.ret (json 200 (Pixels pixels)))
    (fun _ => json 500 (Error "Error loading pixels")).

(** *** POST /api/pixel-pitch/assign *)

(** Which awaited call of the route throws, if any. *)
Inductive Fault : Type :=
| NoFault
| CountFails
| FindFails
| SaveFails
| CreateFails.

Definition is_fault (f g : Fault) : bool :=
  match f, g with
  | CountFails, CountFails
  | FindFails, FindFails
  | SaveFails, SaveFails
  | CreateFails, CreateFails => true
  | _, _ => false
  end.

(** The double [Math.random()] returned, as the fraction [num / den] it
    denotes; it lies in [0, 1) when [num < den]. *)
Record Random := fraction { num : nat; den : nat }.

(** [Math.floor(Math.random() * total)] *)
Definition floor_times (r : Random) (total : nat) : nat :=
  (num r * total) / den r.

(** [Math.round(Math.sqrt(total))]: the root of a whole number is never
    half way between two whole numbers, so rounding goes up exactly when
    [total] exceeds [s * s + s] for [s] the integer root. *)
Definition round_sqrt (total : nat) : nat :=
  let s := Nat.sqrt total in
  if (s * s + s <? total)%nat then S s else s.

(** What one run of the route draws from outside: the random number, the
    clock reading that stamps the new Assignment, and the fault. *)
Record Run := make_run {
  random : Random;
  now : Z;
  fault : Fault
}.

Definition assign (run : Run) (color : JS.value) : Store.t -> Response * Store.t :=
  Store.respond
    (match required_string color with
     | None => Store.ret (json 400 (Error color_required))
     | Some color =>
         total <- Store.await (is_fault (fault run) CountFails)
                    Queries.Pixel_countDocuments ;;
         if (total =? 0)%nat
         then Store.ret (json 500 (Error "No pixels in database"))
         else
           (* Choose random pixel *)
           let randomIndex := floor_times (random run) total in
           found <- Store.await (is_fault (fault run) FindFails)
                      (Queries.Pixel_findOne_skip randomIndex) ;;
           match found with
           | None => Store.ret (json 500 (Error "Could not find random pixel"))
           | Some pixel =>
               (* Compute coordinates based on position *)
               let side := Z.of_nat (round_sqrt total) in
               let x := Z.rem (Pixel.position pixel) side in
               let y := Z.div (Pixel.position pixel) side in
               (* Update pixel color *)
               let pixel := Pixel.set_color pixel color in
               Store.await (is_fault (fault run) SaveFails)
                 (Queries.Pixel_save pixel) ;;;
               (* Log assignment *)
               Store.await (is_fault (fault run) CreateFails)
                 (Queries.Assignment_create (now run) (Pixel._id pixel)
                    (Pixel.color pixel) (Pixel.position pixel)) ;;;
               Store.ret
                 (json 200
                    (Assigned (Pixel.color pixel) (Pixel._id pixel)
                       (Pixel.position pixel) x y))
           end
     end)
    (fun _ => json 500 (Error "Server error while assigning pixel")).

(** *** GET /api/pixel-pitch/recent-assignments *)
Definition recent_assignments (fails : bool) : Store.t -> Response * Store.t :=
  Store.respond
    (assignments <- Store.await fails (Queries.Assignment_find_recent 10) ;;
     Store.ret (json 200 (Assignments assignments)))
    (fun _ => json 500 (Error "Error loading recent assignments")).

End Server.

(** ** [encodeURIComponent]

    Letters, digits and [- _ . ! ~ * ' ( )] stand for themselves; any other
    code unit is written as the percent-escaped bytes of its UTF-8 form. *)
Module URI.

Definition hex_digit (n : nat) : ascii :=
  ascii_of_nat (if (n <? 10)%nat then 48 + n else 55 + n).

Definition percent (byte : nat) : string :=
  String "%"
    (String (hex_digit (byte / 16)) (String (hex_digit (byte mod 16)) "")).

Definition unreserved (n : nat) : bool :=
  (((65 <=? n) && (n <=? 90)) || ((97 <=? n) && (n <=? 122))
   || ((48 <=? n) && (n <=? 57))
   || existsb (Nat.eqb n) [45; 95; 46; 33; 126; 42; 39; 40; 41])%nat.

Definition encode_unit (c : ascii) : string :=
  let n := nat_of_ascii c in
  if unreserved n then String c ""
  else if (n <? 128)%nat then percent n
  else percent (192 + n / 64) ++ percent (128 + n mod 64).

Fixpoint encodeURIComponent (s : string) : string :=
  match s with
  | EmptyString => EmptyString
  | String c r => encode_unit c ++ encodeURIComponent r
  end.

End URI.

(** ** The checkout route of the Express server *)
Module Checkout.
Import Server.

(** [process.env], as far as the route reads it. *)
Record Env := make_env {
  STRIPE_SUCCESS_URL : option string;
  STRIPE_CANCEL_URL : option string
}.

(** [process.env.NAME || fallback] *)
Definition env_or (v : option string) (fallback : string) : string :=
  match v with
  | None => fallback
  | Some u => if String.eqb u "" then fallback else u
  end.

(** The argument of [stripe.checkout.sessions.create]: one line item. *)
Record SessionParams := make_params {
  mode : string;
  payment_method_types : list string;
  currency : string;
  name : string;
  description : string;
  unit_amount : JS.value;
  quantity : nat;
  success_url : string;
  cancel_url : string
}.

(** The payment gateway: the session's [id] and [url], or [None] when the
    call throws. *)
Definition Gateway := SessionParams -> option (string * string).

(** POST /api/pixel-pitch/create-checkout-session.  The result lists the
    sessions the route asked the gateway to open, then the response.  The
    dash of the product names stands as the bytes of the source file. *)
Definition create_checkout_session (env : Env) (stripe : Gateway)
  (color : JS.value) : list SessionParams * Response :=
  match required_string color with
  | None => ([], json 400 (Error color_required))
  | Some color =>
      let priceCents := getPriceForColor (JS.VString color) in
      let isRare := JS.gt_number priceCents 50%float in
      let successUrl :=
        env_or (STRIPE_SUCCESS_URL env) "http://localhost:3000/pitch?success=true" in
      let cancelUrl :=
        env_or (STRIPE_CANCEL_URL env) "http://localhost:3000/pitch?canceled=true" in
      let params :=
        make_params "payment" ["card"] "usd"
          (if isRare then "Pixel Pitch – Rare Pixel" else "Pixel Pitch – 1 Pixel")
          (if isRare then "Rare pixel with color " ++ color
           else "One pixel with color " ++ color)
          priceCents 1
          (successUrl ++ "&color=" ++ URI.encodeURIComponent color)
          cancelUrl in
      match stripe params with
      | Some (id, url) => ([params], json 200 (Session id url))
      | None =>
          ([params], json 500 (Error "Error creating Stripe Checkout session"))
      end
  end.

End Checkout.

(** ** The pitch page: what it does when it loads *)
Module Pitch.

(** Mirror of the server-side pricing logic. *)
Definition RARE_PRICE_MAP : JS.props :=
  [ ("#ffd700", JS.VNumber 500%float);
    ("#00ffff", JS.VNumber 200%float);
    ("#ff00ff", JS.VNumber 200%float) ].

Definition getPriceForColor (color : string) : JS.value :=
  if negb (JS.truthy (JS.VString color)) then JS.VNumber 50%float
  else
    let c := JS.toLowerCase color in
    JS.or (JS.get RARE_PRICE_MAP c) (JS.VNumber 50%float).

(** [window.location.search], parsed: the pairs in the order they appear. *)
Definition URLSearchParams := list (string * string).

(** [params.get(name)]: the first value under [name], [null] if none. *)
Fixpoint get (name : string) (params : URLSearchParams) : option string :=
  match params with
  | [] => None
  | (k, v) :: r => if String.eqb k name then Some v else get name r
  end.

Inductive Stage : Type := select | pay | processing | done.

(** A request the page sends with [fetch]. *)
Record Fetch := make_fetch {
  url : string;
  method : string;
  body : JS.props
}.

(** The request [assignPixelAfterPayment(color)] sends. *)
Definition assignPixelAfterPayment (API_BASE : string) (color : string) : Fetch :=
  make_fetch (API_BASE ++ "/api/pixel-pitch/assign") "POST"
    [("color", JS.VString color)].

(** [v === "true"] for the result of [params.get] *)
Definition is_true (v : option string) : bool :=
  match v with
  | Some u => String.eqb u "true"
  | None => false
  end.

(** The value of [params.get] when it is truthy: neither [null] nor empty. *)
Definition nonempty (v : option string) : option string :=
  match v with
  | Some c => if JS.truthy (JS.VString c) then Some c else None
  | None => None
  end.

(** The effect that detects the return from Stripe: the stage it sets, if
    any, and the requests it sends. *)
Definition on_load (API_BASE : string) (params : URLSearchParams)
  : option Stage * list Fetch :=
  let success := get "success" params in
  let canceled := get "canceled" params in
  let returnedColor := get "color" params in
  match (if is_true success then nonempty returnedColor else None) with
  | Some color => (Some processing, [assignPixelAfterPayment API_BASE color])
  | None => if is_true canceled then (Some select, []) else (None, [])
  end.

End Pitch.

(** The server receiving a request of the page: the assign route reads
    [color] off the JSON body. *)
Definition serve_assign (API_BASE : string) (run : Server.Run) (f : Pitch.Fetch)
  : Store.t -> option (Server.Response * Store.t) :=
  fun s =>
    if String.eqb (Pitch.url f) (API_BASE ++ "/api/pixel-pitch/assign")
       && String.eqb (Pitch.method f) "POST"
    then Some (Server.assign run (JS.get (Pitch.body f) "color") s)
    else None.

(** ** The checkout route of the Next.js application *)
Module NextApi.
Section Handler.

(** The language's conversion of a value to a string, [String(v)] and
    template interpolation alike. *)
Variable ToString : JS.value -> string.

(** [body] is [None] when [req.body] is absent or falsy; [origin] is the
    [Origin] header. *)
Record Request := make_request {
  method : string;
  body : option JS.props;
  origin : option string
}.

Record SessionParams := make_params {
  mode : string;
  payment_method_types : list string;
  currency : string;
  unit_amount : float;
  name : string;
  description : string;
  product_metadata : list (string * JS.value);
  quantity : nat;
  metadata : list (string * JS.value);
  success_url : string;
  cancel_url : string
}.

Inductive Body : Type :=
| Error (error : string)
| Url (url : string).

Record Response := json {
  status : nat;
  allow : option string;
  payload : Body
}.

(** The gateway: the session's [url], or [None] when the call throws. *)
Definition Gateway := SessionParams -> option string.

(** [typeof pixels === "number" && pixels > 0 ? pixels : 1] *)
Definition pixelCount (pixels : JS.value) : float :=
  match pixels with
  | JS.VNumber n => if PrimFloat.ltb 0%float n then n else 1%float
  | _ => 1%float
  end.

(** 1 pixel = $1.00 => 100 cents per pixel *)
Definition amountInCents (pixels : JS.value) : float :=
  PrimFloat.mul (pixelCount pixels) 100%float.

Definition handler (stripe : Gateway) (req : Request)
  : list SessionParams * Response :=
  if negb (String.eqb (method req) "POST")
  then ([], json 405 (Some "POST") (Error "Method not allowed"))
  else
    let fields := match body req with Some o => o | None => [] end in
    let pixelIndex := JS.get fields "pixelIndex" in
    let color := JS.get fields "color" in
    let pixels := JS.get fields "pixels" in
    if negb (String.eqb (JS.typeof pixelIndex) "number") || negb (JS.truthy color)
    then
      ([], json 400 None (Error "Missing pixelIndex or color in request body."))
    else
      let origin :=
        match origin req with
        | Some o => if String.eqb o "" then "http://localhost:3000" else o
        | None => "http://localhost:3000"
        end in
      let params :=
        make_params "payment" ["card"] "usd"
          (amountInCents pixels)
          "Pixel on Pixel Pitch"
          ("Pixel #" ++ ToString pixelIndex ++ " – color " ++ ToString color)
          [("pixelIndex", JS.VString (ToString pixelIndex)); ("color", color)]
          1
          [("pixelIndex", JS.VString (ToString pixelIndex)); ("color", color);
           ("pixelCount", JS.VString (ToString (JS.VNumber (pixelCount pixels))))]
          (origin ++ "/pitch?status=success&pixelIndex="
             ++ URI.encodeURIComponent (ToString pixelIndex)
             ++ "&color=" ++ URI.encodeURIComponent (ToString color))
          (origin ++ "/pitch?status=cancelled") in
      match stripe params with
      | Some url => ([params], json 200 None (Url url))
      | None =>
          ([params],
           json 500 None (Error "Failed to create Stripe Checkout Session."))
      end.

End Handler.
End NextApi.

(** ** Notions the properties are stated with *)


Definition newer_first (a b : Assignment.t) : Prop :=
  (Assignment.createdAt b <= Assignment.createdAt a)%Z.

(** The own-or-inherited property [name] of the request body's object. *)
Definition body_field (req : NextApi.Request) (name : string) : JS.value :=
  JS.get (match NextApi.body req with Some o => o | None => [] end) name.

(** Three gold pixels cost 300 cents on this route, not the rare price. *)
Definition three_gold_pixels : NextApi.Request :=
  NextApi.make_request "POST"
    (Some [("pixelIndex", JS.VNumber 7%float);
           ("color", JS.VString "#ffd700");
           ("pixels", JS.VNumber 3%float)])
    None.





(** What [pixel.save()] makes of a stored document [q] once [pixel] has
    been given [color]. *)
Definition repaint (pixel : Pixel.t) (color : string) (q : Pixel.t) : Pixel.t :=
  if Nat.eqb (Pixel._id q) (Pixel._id pixel) then Pixel.set_color pixel color
  else q.

(** The store after [pixel.save()] has painted [pixel] with [color]. *)
Definition painted (s : Store.t) (pixel : Pixel.t) (color : string) : Store.t :=
  Store.make (Store.canvases s) (map (repaint pixel color) (Store.pixels s))
    (Store.assignments s) (Store.next_oid s).

(** The store after [Assignment.create] has logged that. *)
Definition logged (s : Store.t) (pixel : Pixel.t) (color : string) (now : Z)
  : Store.t :=
  Store.make (Store.canvases s) (Store.pixels s)
    (Store.assignments s
       ++ [Assignment.make (Store.next_oid s) (Pixel._id pixel) color
             (Pixel.position pixel) now])
    (S (Store.next_oid s)).

(** The document the route picks: it skips [floor(random * total)] documents
    of the collection it has just counted. *)
Definition picked (run : Server.Run) (s : Store.t) : option Pixel.t :=
  nth_error (Store.pixels s)
    (Server.floor_times (Server.random run) (List.length (Store.pixels s))).

Definition server_error : Server.Response :=
  Server.json 500 (Server.Error "Server error while assigning pixel").

Definition assigned (s : Store.t) (pixel : Pixel.t) (color : string)
  : Server.Response :=
  let side := Z.of_nat (Server.round_sqrt (List.length (Store.pixels s))) in
  Server.json 200
    (Server.Assigned color (Pixel._id pixel) (Pixel.position pixel)
       (Z.rem (Pixel.position pixel) side) (Z.div (Pixel.position pixel) side)).

(** A grid of side [N], seeded into an empty store without a fault. *)
Definition seeded (N : nat) : Store.t :=
  snd (Seed.run
         (Seed.make_env (Some "mongodb://localhost/pixelpitch") N Seed.NoFault)
         Store.empty).

(** A run in which every store call answers and the random number lies in
    [0, 1). *)
Definition sound (run : Server.Run) : Prop :=
  Server.fault run = Server.NoFault
  /\ (Server.num (Server.random run) < Server.den (Server.random run))%nat.


(** A grid of side 2 whose bulk insert failed at the fourth document. *)
Definition partly_seeded : Store.t :=
  snd (Seed.run
         (Seed.make_env (Some "mongodb://localhost/pixelpitch") 2
            (Seed.InsertFails 3))
         Store.empty).

(** The blank colour the seeding script gives every cell. *)
Definition blank : string := "#ffffff".

(** An Assignment targets the cell whose [_id] is its [pixelId]; read by
    position, it targets the cell at its [position]. *)
Definition targets (p : Pixel.t) (a : Assignment.t) : bool :=
  Nat.eqb (Assignment.pixelId a) (Pixel._id p).

Definition targets_position (p : Pixel.t) (a : Assignment.t) : bool :=
  Z.eqb (Assignment.position a) (Pixel.position p).

(** The entry with the latest [createdAt]; of two entries stamped alike, the
    one logged later. *)
Definition later (best : option Assignment.t) (a : Assignment.t)
  : option Assignment.t :=
  match best with
  | None => Some a
  | Some b =>
      if Z.leb (Assignment.createdAt b) (Assignment.createdAt a)
      then Some a else Some b
  end.

Definition most_recent (l : list Assignment.t) : option Assignment.t :=
  fold_left later l None.

Definition expected_color (hits : Pixel.t -> Assignment.t -> bool)
  (ledger : list Assignment.t) (p : Pixel.t) : string :=
  match most_recent (filter (hits p) ledger) with
  | Some a => Assignment.color a
  | None => blank
  end.

(** Every cell shows the colour of the most recent Assignment targeting it,
    or blank if there is none. *)
Definition consistent_by (hits : Pixel.t -> Assignment.t -> bool) (s : Store.t)
  : Prop :=
  Forall (fun p => Pixel.color p = expected_color hits (Store.assignments s) p)
    (Store.pixels s).

Definition consistent : Store.t -> Prop := consistent_by targets.

(** The clock that stamps a new Assignment has not run backwards. *)
Definition clock_ahead (run : Server.Run) (s : Store.t) : Prop :=
  Forall (fun a => (Assignment.createdAt a <= Server.now run)%Z)
    (Store.assignments s).

(** The stores the operations lead to from the empty one, one operation
    after the other, leaving out the runs of the assign route whose ledger
    write throws. *)
Inductive reachable : Store.t -> Prop :=
| reach_empty : reachable Store.empty
| reach_seed (env : Seed.Env) (s : Store.t) :
    reachable s -> reachable (snd (Seed.run env s))
| reach_all (fails : bool) (s : Store.t) :
    reachable s -> reachable (snd (Server.all fails s))
| reach_recent (fails : bool) (s : Store.t) :
    reachable s -> reachable (snd (Server.recent_assignments fails s))
| reach_assign (run : Server.Run) (color : JS.value) (s : Store.t) :
    reachable s -> clock_ahead run s ->
    Server.fault run <> Server.CreateFails ->
    reachable (snd (Server.assign run color s)).

(** What every reachable store satisfies besides consistency. *)
Record well_formed (s : Store.t) : Prop := {
  wf_ids : NoDup (map Pixel._id (Store.pixels s));
  wf_positions : NoDup (map Pixel.position (Store.pixels s));
  wf_fresh :
    Forall (fun p => (Pixel._id p < Store.next_oid s)%nat) (Store.pixels s);
  wf_canvas :
    Forall (fun p => hd_error (Store.canvases s) = Some (Canvas.make (Pixel.canvas p)))
      (Store.pixels s);
  wf_ledger :
    Forall (fun a => exists p, In p (Store.pixels s)
                               /\ Pixel._id p = Assignment.pixelId a
                               /\ Pixel.position p = Assignment.position a)
      (Store.assignments s);
  wf_consistent : consistent s
}.

(** ** What a page gets back from [fetch]

    The body as JSON: [null], a primitive, or an object with its own
    properties (an array counts as an object here: the pages read named
    properties only). *)
Module Http.

Inductive Data : Type :=
| Null
| Primitive (v : JS.value)
| Obj (fields : JS.props).

Definition truthy (d : Data) : bool :=
  match d with
  | Null => false
  | Primitive v => JS.truthy v
  | Obj _ => true
  end.

(** [data.name]: reading a property of [null] throws, a primitive has none
    of the properties the pages ask for. *)
Definition get (d : Data) (name : string) : option JS.value :=
  match d with
  | Null => None
  | Primitive _ => Some JS.VUndefined
  | Obj fields => Some (JS.get fields name)
  end.

(** [data?.name] *)
Definition get_opt (d : Data) (name : string) : JS.value :=
  match get d name with
  | Some v => v
  | None => JS.VUndefined
  end.

(** The awaited [fetch], then the body read as JSON: the request fails with
    an error of some message, or the body is no JSON, or it parses. *)
Inductive Fetched : Type :=
| Rejected (message : string)
| NotJson (ok : bool)
| Parsed (ok : bool) (data : Data).

(** [res.ok]: a status of 200 to 299. *)
Definition ok_status (status : nat) : bool :=
  ((200 <=? status) && (status <=? 299))%nat.

(** [err.message || fallback] *)
Definition message_or (message fallback : string) : string :=
  if String.eqb message "" then fallback else message.

End Http.

(** ** The pitch page: checkout, result and reset *)
Module PitchFlow.
Import Pitch.

Record State := make_state {
  selectedColor : string;
  stage : Stage;
  result : Http.Data;
  error : JS.value;
  isRedirecting : bool
}.

(** The state the component starts in. *)
Definition initial : State :=
  make_state "#ff0000" select Http.Null JS.VNull false.

(** The request [handleCheckout] sends. *)
Definition checkout_request (API_BASE : string) (st : State) : Fetch :=
  make_fetch (API_BASE ++ "/api/pixel-pitch/create-checkout-session") "POST"
    [("color", JS.VString (selectedColor st))].

Section Handlers.

(** The message of the error thrown on reading the named property of
    [null]; the engine words it. *)
Variable reading_null : string -> string.

(** [handleCheckout], from the answer on: the new state and the address the
    window is sent to, if any. *)
Definition handleCheckout (st : State) (answer : Http.Fetched)
  : State * option JS.value :=
  let failed (message : string) :=
    (make_state (selectedColor st) (stage st) (result st)
       (JS.VString (Http.message_or message "Checkout error")) false,
     None) in
  match answer with
  | Http.Rejected message => failed message
  | Http.NotJson _ => failed "Server returned invalid (non-JSON) response."
  | Http.Parsed ok data =>
      let refused :=
        match Http.get data "error" with
        | None => failed (reading_null "error")
        | Some e =>
            (make_state (selectedColor st) (stage st) (result st)
               (JS.or e (JS.VString "Error creating checkout session")) false,
             None)
        end in
      if negb ok then refused
      else
        match Http.get data "url" with
        | None => failed (reading_null "url")
        | Some url =>
            if negb (JS.truthy url) then refused
            else
              (make_state (selectedColor st) (stage st) (result st)
                 JS.VNull true,
               Some url)
        end
  end.

End Handlers.

(** [assignPixelAfterPayment], from the answer on. *)
Definition assigned (st : State) (answer : Http.Fetched) : State :=
  let failed (message : string) :=
    make_state (selectedColor st) done
      (Http.Obj
         [("error",
           JS.VString
             (Http.message_or message "Error assigning pixel after payment"))])
      JS.VNull (isRedirecting st) in
  match answer with
  | Http.Rejected message => failed message
  | Http.NotJson _ => failed "Server returned invalid (non-JSON) response."
  | Http.Parsed _ data =>
      make_state (selectedColor st) done data JS.VNull (isRedirecting st)
  end.

(** What the page shows in the done stage. *)
Inductive DoneView : Type :=
| Successful (result : Http.Data)
| ErrorAssigning (error : JS.value).

(** [result && !result.error ? ... : ...] *)
Definition done_view (st : State) : DoneView :=
  if Http.truthy (result st)
     && negb (JS.truthy (Http.get_opt (result st) "error"))
  then Successful (result st)
  else ErrorAssigning (Http.get_opt (result st) "error").

(** [url.searchParams.delete(name)] *)
Definition delete (name : string) (params : URLSearchParams) : URLSearchParams :=
  filter (fun kv => negb (String.eqb (fst kv) name)) params.


End PitchFlow.

(** A whole number as the double that holds it (exactly, up to 2^53). *)
Fixpoint number_of_positive (p : positive) : float :=
  match p with
  | xH => 1%float
  | xO q => PrimFloat.mul 2%float (number_of_positive q)
  | xI q => PrimFloat.add (PrimFloat.mul 2%float (number_of_positive q)) 1%float
  end.

Definition number_of_Z (z : Z) : float :=
  match z with
  | Z0 => 0%float
  | Zpos p => number_of_positive p
  | Zneg p => PrimFloat.opp (number_of_positive p)
  end.

Section Wire.

(** [String(_id)]: the text form of an ObjectId. *)
Variable oid_string : ObjectId -> string.

(** The body of a response of the Express server as a page parses it; the
    two lists, which a page takes as arrays, have no named property the
    pages read. *)
Definition parsed_body (b : Server.Body) : Http.Data :=
  match b with
  | Server.Error e => Http.Obj [("error", JS.VString e)]
  | Server.Session id url =>
      Http.Obj [("id", JS.VString id); ("url", JS.VString url)]
  | Server.Assigned color id position x y =>
      Http.Obj
        [("color", JS.VString color);
         ("id", JS.VString (oid_string id));
         ("position", JS.VNumber (number_of_Z position));
         ("x", JS.VNumber (number_of_Z x));
         ("y", JS.VNumber (number_of_Z y))]
  | Server.Pixels _ | Server.Assignments _ => Http.Obj []
  end.

Definition fetched (r : Server.Response) : Http.Fetched :=
  Http.Parsed (Http.ok_status (Server.status r)) (parsed_body (Server.body r)).

End Wire.

(** The checkout route of the Express server receiving a request of the
    page. *)
Definition serve_checkout (API_BASE : string) (env : Checkout.Env)
  (stripe : Checkout.Gateway) (f : Pitch.Fetch)
  : option (list Checkout.SessionParams * Server.Response) :=
  if String.eqb (Pitch.url f)
       (API_BASE ++ "/api/pixel-pitch/create-checkout-session")
     && String.eqb (Pitch.method f) "POST"
  then Some (Checkout.create_checkout_session env stripe
               (JS.get (Pitch.body f) "color"))
  else None.

(** ** The local pitch page (grid kept on the device) *)
Module PitchPage.
Import Pitch.

(** 50x50 = 2500 pixels *)
Definition GRID_SIZE : nat := 50.

Record PixelState := make_pixel { color : option string }.

(** An element of the grid array: a pixel, or the hole a write past the end
    leaves behind. *)
Inductive Slot : Type :=
| Hole
| Cell (p : PixelState).

Definition createInitialPixels : list Slot :=
  repeat (Cell (make_pixel None)) (GRID_SIZE * GRID_SIZE).

(** [next[idx] = v] on a copy of the array: in range it replaces the
    element, past the end it lengthens the array, leaving holes. *)
Definition array_set (l : list Slot) (idx : nat) (v : Slot) : list Slot :=
  if (idx <? List.length l)%nat
  then firstn idx l ++ v :: skipn (S idx) l
  else l ++ repeat Hole (idx - List.length l) ++ [v].

Record State := make_state {
  pixels : list Slot;
  selectedIndex : option nat;
  selectedColor : string;
  isCheckingOut : bool;
  message : option string
}.

Definition initial : State :=
  make_state createInitialPixels None "#ff0000" false None.

(** What [localStorage] holds under the grid's key, as the first effect
    meets it: nothing (or the empty string), text that is no JSON, JSON
    that is no array, or an array, taken to hold pixels as the cast says. *)
Inductive Stored : Type :=
| NoItem
| Unparseable
| NotArray
| StoredArray (items : list PixelState).

(** 1) On first load, try to restore pixels from localStorage *)
Definition restore (stored : Stored) (st : State) : State :=
  match stored with
  | StoredArray items =>
      if (List.length items =? GRID_SIZE * GRID_SIZE)%nat
      then make_state (map Cell items) (selectedIndex st) (selectedColor st)
             (isCheckingOut st) (message st)
      else st
  | _ => st
  end.

(** [parseInt(s, 10)]: leading white space is skipped, then an optional
    sign and the longest run of decimal digits are read; [None] stands for
    NaN, the answer when there is no digit. *)
Definition is_space (c : ascii) : bool :=
  existsb (Nat.eqb (nat_of_ascii c)) [9; 10; 11; 12; 13; 32; 160].

Fixpoint skip_space (s : string) : string :=
  match s with
  | EmptyString => EmptyString
  | String c r => if is_space c then skip_space r else s
  end.

Definition digit (c : ascii) : option Z :=
  let n := nat_of_ascii c in
  if ((48 <=? n) && (n <=? 57))%nat then Some (Z.of_nat (n - 48)) else None.

Fixpoint digits (s : string) (acc : option Z) : option Z :=
  match s with
  | EmptyString => acc
  | String c r =>
      match digit c with
      | Some d =>
          digits r
            (Some (10 * match acc with Some a => a | None => 0 end + d)%Z)
      | None => acc
      end
  end.

Definition parseInt (s : string) : option Z :=
  match skip_space s with
  | String "-" r => option_map Z.opp (digits r None)
  | String "+" r => digits r None
  | t => digits t None
  end.

(** 3) After Stripe redirect, use URL params to mark the purchased pixel:
    the new state and the parameters left in the address. *)
Definition returned (params : URLSearchParams) (st : State)
  : State * URLSearchParams :=
  let status := get "status" params in
  let pixelIndexParam := get "pixelIndex" params in
  let colorParam := get "color" params in
  match status, nonempty pixelIndexParam, nonempty colorParam with
  | Some status, Some pixelIndexParam, Some colorParam =>
      if String.eqb status "success"
      then
        let idx := parseInt pixelIndexParam in
        let st' :=
          match idx with
          | Some idx =>
              if ((0 <=? idx) && (idx <? Z.of_nat (GRID_SIZE * GRID_SIZE)))%Z
              then
                make_state
                  (array_set (pixels st) (Z.to_nat idx)
                     (Cell (make_pixel (Some colorParam))))
                  (Some (Z.to_nat idx)) colorParam (isCheckingOut st)
                  (Some "Pixel saved after purchase. Welcome to the canvas.")
              else st
          | None => st
          end in
        (* Clean the URL so refreshes don't reapply the same update *)
        (st',
         PitchFlow.delete "color"
           (PitchFlow.delete "pixelIndex" (PitchFlow.delete "status" params)))
      else (st, params)
  | _, _, _ => (st, params)
  end.

Definition handlePixelClick (index : nat) (st : State) : State :=
  make_state (pixels st) (Some index) (selectedColor st) (isCheckingOut st) None.

Definition handleColorChange (value : string) (st : State) : State :=
  make_state (pixels st) (selectedIndex st) value (isCheckingOut st) (message st).

Definition handlePreviewColor (st : State) : State :=
  match selectedIndex st with
  | None =>
      make_state (pixels st) None (selectedColor st) (isCheckingOut st)
        (Some "Select a pixel on the canvas first.")
  | Some idx =>
      make_state
        (array_set (pixels st) idx (Cell (make_pixel (Some (selectedColor st)))))
        (Some idx) (selectedColor st) (isCheckingOut st)
        (Some "Color applied locally. Checkout to lock your pixel.")
  end.

(** A count as the number the page puts in a request. *)
Definition number_of_nat (n : nat) : float := number_of_Z (Z.of_nat n).

(** The request [handleCheckout] sends, if it sends one. *)
Definition checkout_request (st : State) : option Fetch :=
  match selectedIndex st with
  | None => None
  | Some idx =>
      Some (make_fetch "/api/create-checkout-session" "POST"
              [("pixelIndex", JS.VNumber (number_of_nat idx));
               ("color", JS.VString (selectedColor st));
               ("pixels", JS.VNumber 1%float)])
  end.

(** [handleCheckout], from the answer on: the new state and the address the
    window is sent to, if any.  Without a selected pixel nothing is sent
    and there is no answer to wait for. *)
Definition handleCheckout (st : State) (answer : Http.Fetched)
  : State * option JS.value :=
  match selectedIndex st with
  | None =>
      (make_state (pixels st) None (selectedColor st) (isCheckingOut st)
         (Some "Select a pixel before checking out."),
       None)
  | Some idx =>
      let failed :=
        (make_state (pixels st) (Some idx) (selectedColor st) false
           (Some "Something went wrong starting checkout. Try again."),
         None) in
      match answer with
      | Http.Rejected _ => failed
      | Http.NotJson _ => failed
      | Http.Parsed ok data =>
          if negb ok then failed
          else
            let url := Http.get_opt data "url" in
            if JS.truthy url
            then
              (make_state (pixels st) (Some idx) (selectedColor st) false None,
               Some url)
            else
              (make_state (pixels st) (Some idx) (selectedColor st) false
                 (Some "Checkout created, but no redirect URL was returned."),
               None)
      end
  end.

(** What the user and the browser can make the page do, one event after
    the other.  A click comes from a button the page has drawn, one per
    element of the grid. *)
Inductive step : State -> State -> Prop :=
| step_restore (stored : Stored) (st : State) : step st (restore stored st)
| step_returned (params : URLSearchParams) (st : State) :
    step st (fst (returned params st))
| step_click (index : nat) (st : State) :
    (index < List.length (pixels st))%nat -> step st (handlePixelClick index st)
| step_color (value : string) (st : State) :
    step st (handleColorChange value st)
| step_preview (st : State) : step st (handlePreviewColor st)
| step_checkout (answer : Http.Fetched) (st : State) :
    step st (fst (handleCheckout st answer)).

Inductive reachable : State -> Prop :=
| reach_initial : reachable initial
| reach_step (st st' : State) : reachable st -> step st st' -> reachable st'.

End PitchPage.

(** The Next.js route receiving a request of the local pitch page, and its
    response as the page parses it. *)
Definition next_request (origin : option string) (f : Pitch.Fetch)
  : NextApi.Request :=
  NextApi.make_request (Pitch.method f) (Some (Pitch.body f)) origin.

Definition next_fetched (r : NextApi.Response) : Http.Fetched :=
  Http.Parsed (Http.ok_status (NextApi.status r))
    (match NextApi.payload r with
     | NextApi.Error e => Http.Obj [("error", JS.VString e)]
     | NextApi.Url u => Http.Obj [("url", JS.VString u)]
     end).

(** ** The canvas pages *)

(** What a canvas page gets when it asks the server for a list: the request
    fails or its body is no JSON (an error of some message), or the
    server's response arrives. *)
Inductive Reply : Type :=
| Failed (message : string)
| Replied (r : Server.Response).

(** The body of the grid route's response as a page holds it: the list of
    cells, or [None] for the error object, which has no [length]. *)
Definition cells_of (b : Server.Body) : option (list Pixel.t) :=
  match b with
  | Server.Pixels l => Some l
  | _ => None
  end.

(** The same for the activity route. *)
Definition entries_of (b : Server.Body) : option (list Assignment.t) :=
  match b with
  | Server.Assignments l => Some l
  | _ => None
  end.

(** [color || "#ffffff"] *)
Definition color_or_white (color : string) : string :=
  if String.eqb color "" then "#ffffff" else color.

(** The live canvas with its activity feed. *)
Module Home.

Record State := make_state {
  pixels : option (list Pixel.t);
  assignments : option (list Assignment.t);
  loading : bool;
  error : option string
}.

Definition initial : State := make_state (Some []) (Some []) true None.

(** [loadData], from the two answers on.  The responses are taken as they
    come: their status is not looked at. *)
Definition loadData (pixelsRes activityRes : Reply) (st : State) : State :=
  match pixelsRes, activityRes with
  | Replied p, Replied a =>
      make_state (cells_of (Server.body p)) (entries_of (Server.body a))
        false None
  | _, _ =>
      make_state (pixels st) (assignments st) false
        (Some "Error loading canvas data from server.")
  end.

(** [pixels.length || 0] *)
Definition count (st : State) : nat :=
  match pixels st with
  | Some l => List.length l
  | None => 0
  end.

(** [Math.round(Math.sqrt(pixels.length || 0)) || 0] *)
Definition side (st : State) : nat := Server.round_sqrt (count st).

(** A cell as drawn: its key, what its tooltip names, and its background. *)
Record CellView := make_cell {
  key : ObjectId;
  position : Z;
  x : Z;
  y : Z;
  color : string;
  backgroundColor : string
}.

Inductive CanvasView : Type :=
| Loading
| ErrorText (error : string)
| NoPixels
| Grid (side : nat) (cells : list CellView).

Definition renderCanvas (st : State) : CanvasView :=
  let canvas :=
    if (count st =? 0)%nat || (side st =? 0)%nat then NoPixels
    else
      Grid (side st)
        (map (fun p =>
                make_cell (Pixel._id p) (Pixel.position p)
                  (Z.rem (Pixel.position p) (Z.of_nat (side st)))
                  (Z.div (Pixel.position p) (Z.of_nat (side st)))
                  (Pixel.color p) (color_or_white (Pixel.color p)))
           (match pixels st with Some l => l | None => [] end)) in
  if loading st then Loading
  else
    match error st with
    | Some (String c e) => ErrorText (String c e)
    | _ => canvas
    end.

Record Entry := make_entry {
  pixelId : ObjectId;
  entry_color : string;
  swatch : string
}.

Inductive ActivityView : Type :=
| NoActivity
| Activity (entries : list Entry).

Definition renderActivity (st : State) : ActivityView :=
  match assignments st with
  | Some (a :: r) =>
      Activity
        (map (fun a =>
                make_entry (Assignment.pixelId a) (Assignment.color a)
                  (color_or_white (Assignment.color a)))
           (a :: r))
  | _ => NoActivity
  end.

End Home.

(** The bare canvas. *)
Module SimpleCanvas.

Record State := make_state {
  pixels : list Pixel.t;
  firstLoad : bool;
  error : option string
}.

Definition initial : State := make_state [] true None.

(** [loadPixels], from the answer on: a response that is not ok is thrown
    as an error carrying the body's [error] text.  A body that is no list
    has no [length] and is kept here as the empty list, which the page
    shows the same way. *)
Definition loadPixels (res : Reply) (st : State) : State :=
  let failed (message : string) :=
    make_state (pixels st) false
      (Some (Http.message_or message "Error loading pixels")) in
  match res with
  | Failed message => failed message
  | Replied r =>
      if negb (Http.ok_status (Server.status r))
      then
        match Server.body r with
        | Server.Error e => failed (Http.message_or e "Error loading pixels")
        | _ => failed "Error loading pixels"
        end
      else
        match Server.body r with
        | Server.Pixels data => make_state data false None
        | _ => make_state [] false None
        end
  end.

(** [Math.ceil(Math.sqrt(total))] *)
Definition ceil_sqrt (total : nat) : nat :=
  let s := Nat.sqrt total in
  if (s * s =? total)%nat then s else S s.

Inductive View : Type :=
| Loading
| ErrorLoading (error : string)
| NoPixels
| Grid (size : nat) (backgrounds : list (ObjectId * string)).

Definition render (st : State) : View :=
  if firstLoad st then Loading
  else
    match error st with
    | Some (String c e) => ErrorLoading (String c e)
    | _ =>
        match pixels st with
        | [] => NoPixels
        | _ =>
            Grid (ceil_sqrt (List.length (pixels st)))
              (map (fun p => (Pixel._id p, color_or_white (Pixel.color p)))
                 (pixels st))
        end
    end.

End SimpleCanvas.

(** What the local pitch page keeps true of its grid: 2500 elements, none
    of them a hole, and a selection, if any, inside the grid. *)
Definition grid_intact (st : PitchPage.State) : Prop :=
  List.length (PitchPage.pixels st) = (PitchPage.GRID_SIZE * PitchPage.GRID_SIZE)%nat
  /\ Forall (fun slot => slot <> PitchPage.Hole) (PitchPage.pixels st)
  /\ forall idx,
       PitchPage.selectedIndex st = Some idx ->
       (idx < PitchPage.GRID_SIZE * PitchPage.GRID_SIZE)%nat.

(** A cell of the live canvas as the home page draws it on a grid of side
    [side]. *)
Definition drawn (side : nat) (p : Pixel.t) : Home.CellView :=
  Home.make_cell (Pixel._id p) (Pixel.position p)
    (Z.rem (Pixel.position p) (Z.of_nat side))
    (Z.div (Pixel.position p) (Z.of_nat side))
    (Pixel.color p) (color_or_white (Pixel.color p)).

(** The cells in the order the grid read returns them. *)
Definition by_position_order (l : list Pixel.t) : list Pixel.t :=
  sort_by (fun p q => Z.leb (Pixel.position p) (Pixel.position q)) l.

(** * Properties *)

(** ** The sort stage *)
Section SortingFacts.
Context {A : Type} (leb : A -> A -> bool).
Hypothesis leb_total : forall a b, leb a b = true \/ leb b a = true.

Lemma insert_by_perm (a : A) (l : list A) :
  Permutation (insert_by leb a l) (a :: l).
Proof.
  induction l as [|b r IH]; simpl.
  - apply Permutation_refl.
  - destruct (leb a b).
    + apply Permutation_refl.
    + eapply perm_trans; [apply perm_skip, IH | apply perm_swap].
Qed.

Lemma sort_by_perm (l : list A) : Permutation (sort_by leb l) l.
Proof.
  induction l as [|a r IH]; simpl.
  - constructor.
  - eapply perm_trans; [apply insert_by_perm | apply perm_skip, IH].
Qed.

Lemma insert_by_hd (a b : A) (l : list A) :
  (ordered_by leb) b a -> HdRel (ordered_by leb) b l -> HdRel (ordered_by leb) b (insert_by leb a l).
Proof.
  intros Hba Hl. destruct l as [|c r]; simpl.
  - constructor. exact Hba.
  - destruct (leb a c); constructor; [exact Hba | now inversion Hl].
Qed.

Lemma insert_by_sorted (a : A) (l : list A) :
  Sorted (ordered_by leb) l -> Sorted (ordered_by leb) (insert_by leb a l).
Proof.
  induction 1 as [|b r Hr IH Hhd]; simpl.
  - repeat constructor.
  - destruct (leb a b) eqn:E.
    + constructor; [constructor; assumption | constructor; exact E].
    + constructor; [exact IH |].
      apply insert_by_hd; [| exact Hhd].
      destruct (leb_total a b) as [H | H]; [congruence | exact H].
Qed.

Lemma sort_by_sorted (l : list A) : Sorted (ordered_by leb) (sort_by leb l).
Proof.
  induction l as [|a r IH]; simpl.
  - constructor.
  - apply insert_by_sorted, IH.
Qed.

End SortingFacts.


Lemma sort_created_strongly_sorted (l : list Assignment.t) :
  StronglySorted newer_first
    (sort_by
       (fun a b => Z.leb (Assignment.createdAt b) (Assignment.createdAt a)) l).
Proof.
  apply Sorted_StronglySorted.
  - intros p q r; unfold newer_first; lia.
  - eapply Sorted_ind with
      (P := fun l => Sorted newer_first l);
      [constructor | | apply sort_by_sorted; intros a b; lia].
    intros a r _ IH Hhd. constructor; [exact IH |].
    destruct Hhd; constructor. unfold newer_first. now apply Z.leb_le.
Qed.

(** ** The query surface *)


Lemma StronglySorted_app_split {A : Type} (R : A -> A -> Prop) (l1 l2 : list A) :
  StronglySorted R (l1 ++ l2) ->
  StronglySorted R l1 /\ Forall (fun a => Forall (R a) l2) l1.
Proof.
  induction l1 as [|a r IH]; simpl; intros H.
  - split; constructor.
  - inversion H as [|? ? Hr Ha]; subst.
    destruct (IH Hr) as [IH1 IH2].
    apply Forall_app in Ha. destruct Ha as [Ha1 Ha2].
    split; constructor; assumption.
Qed.

(** C9: the activity read changes nothing in the store and, when the store
    answers, responds with at most ten Assignments, newest [createdAt]
    first, none of the Assignments left out being newer than one returned;
    when the store call throws it responds 500. *)
Theorem recent_assignments_newest_first (fails : bool) (s : Store.t) :
  snd (Server.recent_assignments fails s) = s
  /\ exists recent older : list Assignment.t,
       fst (Server.recent_assignments fails s)
       = (if fails
          then Server.json 500 (Server.Error "Error loading recent assignments")
          else Server.json 200 (Server.Assignments recent))
       /\ (List.length recent <= 10)%nat
       /\ StronglySorted newer_first recent
       /\ Permutation (recent ++ older) (Store.assignments s)
       /\ Forall (fun a => Forall (newer_first a) older) recent
       /\ (older = [] \/ List.length recent = 10%nat).
Proof.
  split; [destruct fails; reflexivity |].
  set (sorted :=
         sort_by
           (fun a b => Z.leb (Assignment.createdAt b) (Assignment.createdAt a))
           (Store.assignments s)).
  exists (firstn 10 sorted), (skipn 10 sorted).
  assert (Hs : StronglySorted newer_first (firstn 10 sorted ++ skipn 10 sorted)).
  { rewrite firstn_skipn. apply sort_created_strongly_sorted. }
  apply StronglySorted_app_split in Hs. destruct Hs as [Hs1 Hs2].
  split; [destruct fails; reflexivity |].
  split; [apply firstn_le_length |].
  split; [exact Hs1 |].
  split; [rewrite firstn_skipn; apply sort_by_perm |].
  split; [exact Hs2 |].
  destruct (Nat.le_gt_cases (List.length sorted) 10) as [Hle | Hgt].
  - left. now apply skipn_all2.
  - right. rewrite length_firstn. lia.
Qed.

(** ** Pricing *)

Lemma lower_unit_idempotent (c : ascii) :
  JS.lower_unit (JS.lower_unit c) = JS.lower_unit c.
Proof.
  destruct c as [[] [] [] [] [] [] [] []]; reflexivity.
Qed.

Lemma toLowerCase_idempotent (s : string) :
  JS.toLowerCase (JS.toLowerCase s) = JS.toLowerCase s.
Proof.
  induction s as [|c r IH]; simpl; [reflexivity |].
  now rewrite lower_unit_idempotent, IH.
Qed.

Lemma toLowerCase_empty (s : string) :
  String.eqb (JS.toLowerCase s) "" = String.eqb s "".
Proof. destruct s; reflexivity. Qed.

(** The price depends on the colour's letters only up to case. *)
Lemma getPriceForColor_case_insensitive (s : string) :
  Server.getPriceForColor (JS.VString (JS.toLowerCase s))
  = Server.getPriceForColor (JS.VString s).
Proof.
  unfold Server.getPriceForColor. simpl.
  now rewrite toLowerCase_empty, toLowerCase_idempotent.
Qed.

(** A colour that, lowered, names neither a rare colour nor a property every
    object inherits costs the base price. *)
Lemma getPriceForColor_fallback (s : string) :
  JS.lookup (JS.toLowerCase s) Server.RARE_PRICE_MAP = None ->
  JS.lookup (JS.toLowerCase s) JS.Object_prototype = None ->
  Server.getPriceForColor (JS.VString s) = JS.VNumber 50%float.
Proof.
  intros Hown Hproto. unfold Server.getPriceForColor, JS.get. simpl JS.truthy.
  simpl JS.typeof. rewrite Hown, Hproto.
  destruct (String.eqb s ""); reflexivity.
Qed.


(** The page's mirror agrees with the server on every string. *)
Lemma getPriceForColor_mirror (s : string) :
  Pitch.getPriceForColor s = Server.getPriceForColor (JS.VString s).
Proof.
  unfold Pitch.getPriceForColor, Server.getPriceForColor. simpl.
  destruct (String.eqb s ""); reflexivity.
Qed.

Example price_gold :
  Server.getPriceForColor (JS.VString "#FFD700") = JS.VNumber 500%float.
Proof. reflexivity. Qed.

Example price_plain :
  Server.getPriceForColor (JS.VString "#123456") = JS.VNumber 50%float.
Proof. reflexivity. Qed.

(** C4: the colour string "constructor" is in no price table, yet the table
    lookup finds the [constructor] property the table object inherits, which
    is truthy, so the fallback to the base price is skipped: the result is
    the [Object] function, on the server and on the page alike, and no
    price at all.  The string "__proto__" fares the same. *)
Theorem getPriceForColor_constructor :
  JS.lookup "constructor" Server.RARE_PRICE_MAP = None
  /\ Server.getPriceForColor (JS.VString "constructor") = JS.VFunction "Object"
  /\ Pitch.getPriceForColor "constructor" = JS.VFunction "Object"
  /\ Server.getPriceForColor (JS.VString "constructor") <> JS.VNumber 50%float
  /\ Server.getPriceForColor (JS.VString "__proto__")
     = JS.VObject "Object.prototype".
Proof.
  repeat split; try reflexivity. discriminate.
Qed.

(** ** The Next.js checkout route *)

Lemma pixelCount_cases (pixels : JS.value) :
  (exists n, pixels = JS.VNumber n /\ PrimFloat.ltb 0%float n = true
             /\ NextApi.pixelCount pixels = n)
  \/ ((forall n, pixels = JS.VNumber n -> PrimFloat.ltb 0%float n = false)
      /\ NextApi.pixelCount pixels = 1%float).
Proof.
  destruct pixels as [| |b|x|s0|r|r];
    try (right; split; [intros n Hn; discriminate Hn | reflexivity]).
  simpl. destruct (PrimFloat.ltb 0%float x) eqn:E.
  - left. exists x. auto.
  - right. split; [| reflexivity]. intros n Hn. now inversion Hn; subst.
Qed.

Lemma handler_sessions (ToString : JS.value -> string)
  (stripe : NextApi.Gateway) (req : NextApi.Request) (p : NextApi.SessionParams) :
  In p (fst (NextApi.handler ToString stripe req)) ->
  NextApi.unit_amount p = NextApi.amountInCents (body_field req "pixels")
  /\ NextApi.quantity p = 1%nat.
Proof.
  unfold NextApi.handler, body_field.
  destruct (negb (String.eqb (NextApi.method req) "POST")); [intros [] |].
  destruct (_ || _); [intros [] |].
  destruct (stripe _); simpl; intros [<- | []]; split; reflexivity.
Qed.

(** C10: every session the Next.js route asks the gateway to open charges
    one item of [pixelCount * 100] cents, where [pixelCount] is the body's
    [pixels] when that is a number above 0 and 1 otherwise; two requests
    with the same [pixels] are charged the same whatever their colours. *)
Theorem next_checkout_amount (ToString : JS.value -> string)
  (stripe : NextApi.Gateway) (req : NextApi.Request) (p : NextApi.SessionParams) :
  In p (fst (NextApi.handler ToString stripe req)) ->
  let pixels := body_field req "pixels" in
  NextApi.unit_amount p = PrimFloat.mul (NextApi.pixelCount pixels) 100%float
  /\ NextApi.quantity p = 1%nat
  /\ ((exists n, pixels = JS.VNumber n /\ PrimFloat.ltb 0%float n = true
                 /\ NextApi.pixelCount pixels = n)
      \/ ((forall n, pixels = JS.VNumber n -> PrimFloat.ltb 0%float n = false)
          /\ NextApi.pixelCount pixels = 1%float))
  /\ (forall stripe' req' p',
        In p' (fst (NextApi.handler ToString stripe' req')) ->
        body_field req' "pixels" = pixels ->
        NextApi.unit_amount p' = NextApi.unit_amount p).
Proof.
  intros Hp pixels.
  destruct (handler_sessions _ _ _ _ Hp) as [Hamount Hq].
  split; [exact Hamount |]. split; [exact Hq |].
  split; [apply pixelCount_cases |].
  intros stripe' req' p' Hp' Hsame.
  destruct (handler_sessions _ _ _ _ Hp') as [Hamount' _].
  rewrite Hamount', Hamount, Hsame. reflexivity.
Qed.

Lemma next_checkout_amount_witness :
  exists p,
    fst (NextApi.handler (fun _ => "7") (fun _ => Some "https://pay")
           three_gold_pixels) = [p]
    /\ NextApi.unit_amount p = 300%float.
Proof.
  eexists. split; [reflexivity |].
  refine (proj1 (next_checkout_amount (fun _ => "7") (fun _ => Some "https://pay")
                   three_gold_pixels _ _)).
  left. reflexivity.
Defined.

(** ** The checkout route of the Express server *)

Lemma required_string_spec (color : JS.value) :
  Server.required_string color
  = match color with
    | JS.VString s => if String.eqb s "" then None else Some s
    | _ => None
    end.
Proof.
  destruct color as [| |b|x|s|r|r]; try reflexivity.
  - unfold Server.required_string. simpl. now destruct b.
  - unfold Server.required_string. simpl.
    now destruct (negb (PrimFloat.eqb x 0 || PrimFloat.is_nan x)).
  - unfold Server.required_string. simpl. now destruct (String.eqb s "").
Qed.



(** ** The assign route, step by step *)

Lemma nth_error_nonempty {A : Type} (l : list A) (n : nat) (a : A) :
  nth_error l n = Some a -> (List.length l =? 0)%nat = false.
Proof.
  destruct l; [destruct n; discriminate | reflexivity].
Qed.

(** What the route does once the guard has let the colour through and the
    skip has found a document. *)
Lemma assign_picked (run : Server.Run) (c : ascii) (r : string) (s : Store.t)
  (pixel : Pixel.t) :
  picked run s = Some pixel ->
  Server.assign run (JS.VString (String c r)) s
  = match Server.fault run with
    | Server.NoFault =>
        (assigned s pixel (String c r),
         logged (painted s pixel (String c r)) pixel (String c r) (Server.now run))
    | Server.CreateFails => (server_error, painted s pixel (String c r))
    | _ => (server_error, s)
    end.
Proof.
  unfold picked. intros Hpick.
  pose proof (nth_error_nonempty _ _ _ Hpick) as Hne.
  unfold Server.assign, Store.respond, Store.bind, Store.await, Store.ret,
    Store.throw.
  rewrite required_string_spec. change (String.eqb (String c r) "") with false.
  cbv iota.
  destruct (Server.fault run); simpl;
    rewrite ?Hne, ?Hpick; try reflexivity.
Qed.

(** What it does when the skip finds nothing, or nothing is stored. *)
Lemma assign_not_picked (run : Server.Run) (color : JS.value) (s : Store.t) :
  picked run s = None ->
  snd (Server.assign run color s) = s
  /\ Server.status (fst (Server.assign run color s)) <> 200%nat.
Proof.
  unfold picked. intros Hpick.
  unfold Server.assign, Store.respond, Store.bind, Store.await, Store.ret,
    Store.throw.
  destruct (Server.required_string color); [| split; [reflexivity | discriminate]].
  destruct (Server.fault run); simpl;
    destruct (List.length (Store.pixels s) =? 0)%nat; simpl;
    rewrite ?Hpick; split; try reflexivity; discriminate.
Qed.

(** What it does when the guard rejects the colour. *)
Lemma assign_rejected (run : Server.Run) (color : JS.value) (s : Store.t) :
  Server.required_string color = None ->
  Server.assign run color s
  = (Server.json 400 (Server.Error Server.color_required), s).
Proof.
  intros H. unfold Server.assign, Store.respond. now rewrite H.
Qed.

Lemma floor_times_lt (r : Server.Random) (total : nat) :
  (Server.num r < Server.den r)%nat -> (0 < total)%nat ->
  (Server.floor_times r total < total)%nat.
Proof.
  intros Hr Ht. unfold Server.floor_times.
  apply Nat.Div0.div_lt_upper_bound. nia.
Qed.

Lemma sound_picks (run : Server.Run) (s : Store.t) :
  sound run -> Store.pixels s <> [] -> exists pixel, picked run s = Some pixel.
Proof.
  intros [_ Hr] Hne. unfold picked.
  destruct (nth_error (Store.pixels s) _) as [pixel|] eqn:E.
  - now exists pixel.
  - apply nth_error_None in E.
    assert (0 < List.length (Store.pixels s))%nat
      by (destruct (Store.pixels s); [congruence | simpl; lia]).
    pose proof (floor_times_lt _ _ Hr H). lia.
Qed.

Lemma assign_sound (run : Server.Run) (c : ascii) (r : string) (s : Store.t) :
  sound run -> Store.pixels s <> [] ->
  exists pixel,
    picked run s = Some pixel
    /\ Server.assign run (JS.VString (String c r)) s
       = (assigned s pixel (String c r),
          logged (painted s pixel (String c r)) pixel (String c r)
            (Server.now run)).
Proof.
  intros Hsound Hne. destruct (sound_picks _ _ Hsound Hne) as [pixel Hp].
  exists pixel. split; [exact Hp |].
  rewrite (assign_picked _ _ _ _ _ Hp). destruct Hsound as [-> _]. reflexivity.
Qed.

(** ** Failure between the two writes *)

(** C3, as stated, fails: when the ledger write throws, the cell write that
    came before it stays; the store then shows a painted cell and an empty
    ledger. *)
Lemma assign_ledger_failure_leaves_cell_painted :
  let s := seeded 2 in
  let run := Server.make_run (Server.fraction 1 2) 1000 Server.CreateFails in
  let s' := snd (Server.assign run (JS.VString "#aa0000") s) in
  map Pixel.color (Store.pixels s) = ["#ffffff"; "#ffffff"; "#ffffff"; "#ffffff"]
  /\ map Pixel.color (Store.pixels s')
     = ["#ffffff"; "#ffffff"; "#aa0000"; "#ffffff"]
  /\ Store.assignments s' = [].
Proof.
  repeat split.
Qed.

(** C3, amended: the route writes the cell first and the ledger second, as
    two store calls.  With no fault both writes take effect and the answer
    is 200; when the ledger write throws, the cell stays painted, nothing is
    logged and the answer is 500; when an earlier call throws, the store is
    left as it was and the answer is 500. *)
Theorem assign_writes_cell_then_ledger (run : Server.Run) (c : ascii)
  (r : string) (s : Store.t) (pixel : Pixel.t) :
  picked run s = Some pixel ->
  let color := String c r in
  let out := Server.assign run (JS.VString color) s in
  let entry :=
    Assignment.make (Store.next_oid s) (Pixel._id pixel) color
      (Pixel.position pixel) (Server.now run) in
  match Server.fault run with
  | Server.NoFault =>
      Store.pixels (snd out) = map (repaint pixel color) (Store.pixels s)
      /\ Store.assignments (snd out) = Store.assignments s ++ [entry]
      /\ Server.status (fst out) = 200%nat
  | Server.CreateFails =>
      Store.pixels (snd out) = map (repaint pixel color) (Store.pixels s)
      /\ Store.assignments (snd out) = Store.assignments s
      /\ Server.status (fst out) = 500%nat
  | _ => snd out = s /\ Server.status (fst out) = 500%nat
  end.
Proof.
  intros Hp color out entry. subst out entry color.
  rewrite (assign_picked _ _ _ _ _ Hp).
  destruct (Server.fault run); repeat split.
Qed.

Lemma assign_writes_cell_then_ledger_witness :
  let s := seeded 2 in
  let run := Server.make_run (Server.fraction 1 2) 1000 Server.CreateFails in
  let out := Server.assign run (JS.VString "#aa0000") s in
  Store.assignments (snd out) = Store.assignments s
  /\ Server.status (fst out) = 500%nat.
Proof.
  intros s run out.
  exact (proj2 (assign_writes_cell_then_ledger run "#" "aa0000" s
                  (Pixel.make 3 2 "#ffffff" 0) eq_refl)).
Defined.

(** ** Replay *)


Lemma painted_length (s : Store.t) (pixel : Pixel.t) (color : string) (now : Z) :
  List.length (Store.pixels (logged (painted s pixel color) pixel color now))
  = List.length (Store.pixels s).
Proof. simpl. apply length_map. Qed.



(** ** Selecting the cell *)







(** ** What triggers an Assignment *)

Lemma seed_keeps_ledger (env : Seed.Env) (s : Store.t) :
  Store.assignments (snd (Seed.run env s)) = Store.assignments s.
Proof.
  unfold Seed.run, Store.respond, Store.bind, Store.await, Store.ret,
    Store.throw.
  destruct (Seed.missing (Seed.MONGODB_URI env)); [reflexivity |].
  destruct (Seed.fault env); simpl; try reflexivity;
    destruct (Store.canvases s); simpl;
    repeat match goal with
           | |- context [(0 <? ?n)%nat] => destruct (0 <? n)%nat; simpl
           end; reflexivity.
Qed.

(** C2, as stated, fails: loading the pitch page with hand-written URL
    parameters, no payment having taken place, makes the page post to the
    assign route, which paints a cell and logs an Assignment. *)
Lemma forged_return_url_assigns :
  let params := [("success", "true"); ("color", "#ff0000")] in
  let run := Server.make_run (Server.fraction 1 2) 1000 Server.NoFault in
  exists f resp s',
    Pitch.on_load "http://localhost:4000" params = (Some Pitch.processing, [f])
    /\ serve_assign "http://localhost:4000" run f (seeded 2) = Some (resp, s')
    /\ Server.status resp = 200%nat
    /\ Store.assignments (seeded 2) = []
    /\ Store.assignments s' = [Assignment.make 5 3 "#ff0000" 2 1000]
    /\ map Pixel.color (Store.pixels s')
       = ["#ffffff"; "#ffffff"; "#ff0000"; "#ffffff"].
Proof.
  do 3 eexists. repeat split.
Qed.

(** C2, amended: an Assignment is created by the assign route, for any
    request whose colour is a non-empty string; the route checks nothing
    else.  The pitch page sends that request whenever it is loaded with the
    URL parameters [success=true] and a non-empty [color]; the seeding
    script and the two reads create no Assignment. *)
Theorem return_url_triggers_assignment (API_BASE : string)
  (params : Pitch.URLSearchParams) (c : ascii) (r : string)
  (run : Server.Run) (s : Store.t) :
  Pitch.get "success" params = Some "true" ->
  Pitch.get "color" params = Some (String c r) ->
  sound run -> Store.pixels s <> [] ->
  (exists f pixel,
     Pitch.on_load API_BASE params = (Some Pitch.processing, [f])
     /\ picked run s = Some pixel
     /\ serve_assign API_BASE run f s
        = Some (assigned s pixel (String c r),
                logged (painted s pixel (String c r)) pixel (String c r)
                  (Server.now run)))
  /\ (forall env, Store.assignments (snd (Seed.run env s)) = Store.assignments s)
  /\ (forall fails, snd (Server.all fails s) = s)
  /\ (forall fails, snd (Server.recent_assignments fails s) = s).
Proof.
  intros Hsuccess Hcolor Hsound Hne. split; [| split; [| split]].
  - destruct (assign_sound run c r s Hsound Hne) as [pixel [Hp Heq]].
    exists (Pitch.assignPixelAfterPayment API_BASE (String c r)), pixel.
    split; [| split; [exact Hp |]].
    + unfold Pitch.on_load. rewrite Hsuccess, Hcolor. reflexivity.
    + unfold serve_assign. simpl Pitch.url. rewrite String.eqb_refl.
      simpl. now rewrite <- Heq.
  - intros env. apply seed_keeps_ledger.
  - intros fails. destruct fails; reflexivity.
  - intros fails. destruct fails; reflexivity.
Qed.

Lemma return_url_triggers_assignment_witness :
  exists f pixel,
    Pitch.on_load "http://localhost:4000"
      [("success", "true"); ("color", "#ff0000")]
    = (Some Pitch.processing, [f])
    /\ picked (Server.make_run (Server.fraction 1 2) 1000 Server.NoFault)
         (seeded 2) = Some pixel
    /\ serve_assign "http://localhost:4000"
         (Server.make_run (Server.fraction 1 2) 1000 Server.NoFault) f (seeded 2)
       = Some (assigned (seeded 2) pixel "#ff0000",
               logged (painted (seeded 2) pixel "#ff0000") pixel "#ff0000" 1000).
Proof.
  apply (return_url_triggers_assignment "http://localhost:4000"
           [("success", "true"); ("color", "#ff0000")] "#" "ff0000"
           (Server.make_run (Server.fraction 1 2) 1000 Server.NoFault)
           (seeded 2)).
  - reflexivity.
  - reflexivity.
  - split; [reflexivity | simpl; lia].
  - discriminate.
Defined.

(** ** Consistency of the grid with the ledger *)

Lemma NoDup_map_eq {A B : Type} (f : A -> B) (l : list A) (x y : A) :
  NoDup (map f l) -> In x l -> In y l -> f x = f y -> x = y.
Proof.
  induction l as [|a r IH]; simpl; intros Hnd Hx Hy Hf; [contradiction |].
  inversion Hnd as [|? ? Hnotin Hnd']; subst.
  destruct Hx as [-> | Hx], Hy as [-> | Hy]; auto.
  - exfalso. apply Hnotin. rewrite Hf. now apply in_map.
  - exfalso. apply Hnotin. rewrite <- Hf. now apply in_map.
Qed.

Lemma most_recent_in (l : list Assignment.t) (best b : option Assignment.t) :
  fold_left later l best = b ->
  forall a, b = Some a -> best = Some a \/ In a l.
Proof.
  revert best. induction l as [|x r IH]; simpl; intros best Hb a Ha.
  - left. congruence.
  - destruct (IH _ Hb a Ha) as [H | H]; [| now right; right].
    unfold later in H. destruct best as [b0|].
    + destruct (Z.leb _ _); inversion H; subst; auto.
    + inversion H; subst; auto.
Qed.

Lemma most_recent_snoc (l : list Assignment.t) (a : Assignment.t) :
  Forall (fun b => (Assignment.createdAt b <= Assignment.createdAt a)%Z) l ->
  most_recent (l ++ [a]) = Some a.
Proof.
  intros Hl. unfold most_recent. rewrite fold_left_app. simpl.
  destruct (fold_left later l None) as [b|] eqn:E; simpl; [| reflexivity].
  destruct (most_recent_in l None (Some b) E b eq_refl) as [H | H];
    [discriminate |].
  rewrite Forall_forall in Hl. apply Hl in H.
  apply Z.leb_le in H. now rewrite H.
Qed.

Lemma expected_color_snoc_hit (hits : Pixel.t -> Assignment.t -> bool)
  (ledger : list Assignment.t) (a : Assignment.t) (p : Pixel.t) :
  hits p a = true ->
  Forall (fun b => (Assignment.createdAt b <= Assignment.createdAt a)%Z) ledger ->
  expected_color hits (ledger ++ [a]) p = Assignment.color a.
Proof.
  intros Ht Hl. unfold expected_color. rewrite filter_app. simpl. rewrite Ht.
  rewrite most_recent_snoc; [reflexivity |].
  apply Forall_forall. intros b Hb. apply filter_In in Hb.
  rewrite Forall_forall in Hl. now apply Hl.
Qed.

Lemma expected_color_snoc_miss (hits : Pixel.t -> Assignment.t -> bool)
  (ledger : list Assignment.t) (a : Assignment.t) (p : Pixel.t) :
  hits p a = false ->
  expected_color hits (ledger ++ [a]) p = expected_color hits ledger p.
Proof.
  intros Ht. unfold expected_color. rewrite filter_app. simpl. rewrite Ht.
  now rewrite app_nil_r.
Qed.

Section Repaint.
Variables (s : Store.t) (pixel : Pixel.t) (color : string) (now : Z).
Hypothesis Hwf : well_formed s.
Hypothesis Hin : In pixel (Store.pixels s).
Hypothesis Hclock :
  Forall (fun a => (Assignment.createdAt a <= now)%Z) (Store.assignments s).

Lemma repaint_same_cell (q : Pixel.t) :
  In q (Store.pixels s) -> Pixel._id q = Pixel._id pixel -> q = pixel.
Proof.
  intros Hq Hid.
  exact (NoDup_map_eq Pixel._id _ q pixel (wf_ids s Hwf) Hq Hin Hid).
Qed.

Lemma repaint_keeps (q : Pixel.t) :
  In q (Store.pixels s) ->
  Pixel._id (repaint pixel color q) = Pixel._id q
  /\ Pixel.position (repaint pixel color q) = Pixel.position q
  /\ Pixel.canvas (repaint pixel color q) = Pixel.canvas q.
Proof.
  intros Hq. unfold repaint.
  destruct (Nat.eqb_spec (Pixel._id q) (Pixel._id pixel)) as [Hid | Hid].
  - rewrite (repaint_same_cell q Hq Hid). repeat split.
  - repeat split.
Qed.

Lemma repaint_map {B : Type} (f : Pixel.t -> B) :
  (forall q, In q (Store.pixels s) -> f (repaint pixel color q) = f q) ->
  map f (map (repaint pixel color) (Store.pixels s)) = map f (Store.pixels s).
Proof.
  intros H. rewrite map_map. apply map_ext_in. exact H.
Qed.

Lemma well_formed_assign :
  well_formed (logged (painted s pixel color) pixel color now).
Proof.
  assert (Hids : map Pixel._id (map (repaint pixel color) (Store.pixels s))
                 = map Pixel._id (Store.pixels s))
    by (apply repaint_map; intros q Hq; apply (repaint_keeps q Hq)).
  assert (Hpos : map Pixel.position (map (repaint pixel color) (Store.pixels s))
                 = map Pixel.position (Store.pixels s))
    by (apply repaint_map; intros q Hq; apply (repaint_keeps q Hq)).
  constructor; simpl.
  - rewrite Hids. apply (wf_ids s Hwf).
  - rewrite Hpos. apply (wf_positions s Hwf).
  - apply Forall_map, Forall_forall. intros q Hq.
    destruct (repaint_keeps q Hq) as [-> _].
    pose proof (wf_fresh s Hwf) as Hf. rewrite Forall_forall in Hf.
    specialize (Hf q Hq). lia.
  - apply Forall_map, Forall_forall. intros q Hq.
    destruct (repaint_keeps q Hq) as [_ [_ ->]].
    pose proof (wf_canvas s Hwf) as Hc. rewrite Forall_forall in Hc.
    exact (Hc q Hq).
  - apply Forall_app. split.
    + eapply Forall_impl; [| apply (wf_ledger s Hwf)].
      intros a [p [Hp [Hid Hps]]]. exists (repaint pixel color p).
      destruct (repaint_keeps p Hp) as [-> [-> _]].
      split; [now apply in_map | now split].
    + constructor; [| constructor]. exists (repaint pixel color pixel).
      destruct (repaint_keeps pixel Hin) as [-> [-> _]].
      split; [now apply in_map | now split].
  - unfold consistent, consistent_by. simpl.
    apply Forall_map, Forall_forall. intros q Hq.
    pose proof (wf_consistent s Hwf) as Hc.
    unfold consistent, consistent_by in Hc.
    rewrite Forall_forall in Hc. specialize (Hc q Hq).
    unfold repaint.
    destruct (Nat.eqb_spec (Pixel._id q) (Pixel._id pixel)) as [Hid | Hid].
    + rewrite expected_color_snoc_hit; [reflexivity | |].
      * unfold targets. simpl. apply Nat.eqb_refl.
      * exact Hclock.
    + rewrite expected_color_snoc_miss; [exact Hc |].
      unfold targets. simpl. apply Nat.eqb_neq. congruence.
Qed.

End Repaint.

Lemma well_formed_assign_run (run : Server.Run) (color : JS.value) (s : Store.t) :
  well_formed s -> clock_ahead run s ->
  Server.fault run <> Server.CreateFails ->
  well_formed (snd (Server.assign run color s)).
Proof.
  intros Hwf Hclock Hfault.
  destruct (picked run s) as [pixel|] eqn:Hp.
  - destruct (Server.required_string color) as [c|] eqn:Hreq.
    + rewrite required_string_spec in Hreq.
      destruct color as [| |b|x|c0|r0|r0]; try discriminate.
      destruct c0 as [|a r]; [discriminate |].
      rewrite (assign_picked _ _ _ _ _ Hp).
      destruct (Server.fault run); try exact Hwf; [| congruence].
      apply well_formed_assign; [exact Hwf | | exact Hclock].
      unfold picked in Hp. now apply nth_error_In in Hp.
    + now rewrite (assign_rejected _ _ _ Hreq).
  - now rewrite (proj1 (assign_not_picked run color s Hp)).
Qed.

Lemma insert_each_fields (canvas : ObjectId) (m a : nat) (oid : ObjectId) :
  let inserted :=
    Queries.Pixel_insert_each
      (map (fun pos => (Z.of_nat pos, "#ffffff", canvas)) (seq a m)) oid in
  map Pixel._id inserted = seq oid m
  /\ map Pixel.position inserted = map Z.of_nat (seq a m)
  /\ Forall (fun p => Pixel.canvas p = canvas /\ Pixel.color p = blank) inserted.
Proof.
  revert a oid. induction m as [|m IH]; intros a oid; simpl.
  - repeat split. constructor.
  - destruct (IH (S a) (S oid)) as [Hids [Hpos Hrest]].
    rewrite Hids, Hpos. repeat split. constructor; [split; reflexivity | exact Hrest].
Qed.

Lemma firstn_seq_min (k a n : nat) : firstn k (seq a n) = seq a (Nat.min k n).
Proof.
  revert a n. induction k as [|k IH]; intros a n; [reflexivity |].
  destruct n as [|n]; simpl; [reflexivity |]. now rewrite IH.
Qed.

Lemma of_nat_NoDup (l : list nat) : NoDup l -> NoDup (map Z.of_nat l).
Proof.
  induction 1 as [|x r Hx _ IH]; simpl; constructor; [| exact IH].
  intros Hin. apply in_map_iff in Hin. destruct Hin as [y [Hy Hin]].
  apply Nat2Z.inj in Hy. now subst.
Qed.

Lemma no_pixels_no_ledger (s : Store.t) :
  well_formed s -> Store.pixels s = [] -> Store.assignments s = [].
Proof.
  intros Hwf Hnil. pose proof (wf_ledger s Hwf) as Hl. rewrite Hnil in Hl.
  destruct (Store.assignments s) as [|a r]; [reflexivity |].
  inversion Hl as [|? ? [p [Hin _]] _]. contradiction.
Qed.

Lemma no_canvas_no_pixels (s : Store.t) :
  well_formed s -> Store.canvases s = [] -> Store.pixels s = [].
Proof.
  intros Hwf Hnil. pose proof (wf_canvas s Hwf) as Hc. rewrite Hnil in Hc.
  destruct (Store.pixels s) as [|p r]; [reflexivity |].
  inversion Hc as [|? ? Habs _]. discriminate Habs.
Qed.

Lemma well_formed_canvas_create (s : Store.t) :
  well_formed s -> Store.canvases s = [] ->
  well_formed (snd (Queries.Canvas_create s)).
Proof.
  intros Hwf Hnil. pose proof (no_canvas_no_pixels s Hwf Hnil) as Hpx.
  pose proof (no_pixels_no_ledger s Hwf Hpx) as Hled.
  constructor; unfold consistent, consistent_by; simpl; rewrite ?Hpx, ?Hled; constructor.
Qed.

Lemma well_formed_insert (s : Store.t) (canvas : ObjectId) (total k : nat) :
  well_formed s -> Store.pixels s = [] ->
  hd_error (Store.canvases s) = Some (Canvas.make canvas) ->
  well_formed
    (snd (Queries.Pixel_insertMany (firstn k (Seed.docs total canvas)) s)).
Proof.
  intros Hwf Hpx Hcv. pose proof (no_pixels_no_ledger s Hwf Hpx) as Hled.
  unfold Seed.docs. rewrite firstn_map, firstn_seq_min.
  destruct (insert_each_fields canvas (Nat.min k total) 0 (Store.next_oid s))
    as [Hids [Hpos Hrest]].
  constructor; unfold consistent, consistent_by; simpl; rewrite ?Hpx, ?Hled; simpl.
  - rewrite Hids. apply seq_NoDup.
  - rewrite Hpos. apply of_nat_NoDup, seq_NoDup.
  - apply Forall_forall. intros p Hp.
    assert (Hi : In (Pixel._id p) (seq (Store.next_oid s) (Nat.min k total)))
      by (rewrite <- Hids; now apply in_map).
    apply in_seq in Hi. rewrite length_map, length_seq. lia.
  - eapply Forall_impl; [| exact Hrest]. intros p [Hc _].
    simpl. rewrite Hcv. now rewrite <- Hc; destruct p.
  - constructor.
  - eapply Forall_impl; [| exact Hrest]. intros p [_ Hc]. simpl. exact Hc.
Qed.

(** The stores the seeding script can leave behind. *)
Lemma seed_run_cases (env : Seed.Env) (s : Store.t) :
  let total := (Seed.canvasSize env * Seed.canvasSize env)%nat in
  let out := snd (Seed.run env s) in
  out = s
  \/ (Store.canvases s = [] /\ out = snd (Queries.Canvas_create s))
  \/ (exists cv rest k,
        Store.canvases s = cv :: rest
        /\ filter (fun p => Nat.eqb (Pixel.canvas p) (Canvas._id cv))
             (Store.pixels s) = []
        /\ out = snd (Queries.Pixel_insertMany
                        (firstn k (Seed.docs total (Canvas._id cv))) s))
  \/ (exists k,
        Store.canvases s = []
        /\ out = snd (Queries.Pixel_insertMany
                        (firstn k (Seed.docs total (Store.next_oid s)))
                        (snd (Queries.Canvas_create s)))).
Proof.
  intros total out. subst out.
  unfold Seed.run, Store.respond, Store.bind, Store.await, Store.ret,
    Store.throw.
  destruct (Seed.missing (Seed.MONGODB_URI env)); [now left |].
  destruct (Store.canvases s) as [|cv rest] eqn:Hcv.
  - destruct (Seed.fault env) as [| | | | |stored] eqn:Hf; simpl;
      rewrite ?Hcv; simpl;
      try (now left); try (right; left; split; [reflexivity |]; simpl; now rewrite Hcv);
      repeat match goal with
             | |- context [(0 <? ?n)%nat] => destruct (0 <? n)%nat eqn:?; simpl
             end;
      try (right; left; split; [reflexivity |]; simpl; now rewrite Hcv).
    + right. right. right. exists (List.length (Seed.docs total (Store.next_oid s))).
      split; [reflexivity |]. rewrite firstn_all. simpl. now rewrite Hcv.
    + right. right. right. exists stored.
      split; [reflexivity |]. simpl. now rewrite Hcv.
  - destruct (Seed.fault env) as [| | | | |stored] eqn:Hf; simpl;
      rewrite ?Hcv; simpl;
      try (now left);
      destruct (filter _ (Store.pixels s)) eqn:Hfilter; simpl;
      try (now left);
      right; right; left;
      first
        [ exists cv, rest, stored;
          split; [reflexivity |]; split; [exact Hfilter |];
          simpl; now rewrite Hcv
        | exists cv, rest, (List.length (Seed.docs total (Canvas._id cv)));
          split; [reflexivity |]; split; [exact Hfilter |];
          rewrite firstn_all; simpl; now rewrite Hcv ].
Qed.

Lemma well_formed_seed (env : Seed.Env) (s : Store.t) :
  well_formed s -> well_formed (snd (Seed.run env s)).
Proof.
  intros Hwf.
  destruct (seed_run_cases env s)
    as [-> | [[Hnil ->] | [[cv [rest [k [Hcv [Hnone ->]]]]] | [k [Hnil ->]]]]].
  - exact Hwf.
  - now apply well_formed_canvas_create.
  - apply well_formed_insert; [exact Hwf | | rewrite Hcv; now destruct cv].
    pose proof (wf_canvas s Hwf) as Hc. rewrite Hcv in Hc. simpl in Hc.
    destruct (Store.pixels s) as [|p r]; [reflexivity |].
    inversion Hc as [|? ? Hp _]. inversion Hp; subst. simpl in Hnone.
    rewrite Nat.eqb_refl in Hnone. discriminate.
  - apply well_formed_insert.
    + now apply well_formed_canvas_create.
    + simpl. now apply no_canvas_no_pixels.
    + simpl. now rewrite Hnil.
Qed.

Lemma well_formed_empty : well_formed Store.empty.
Proof. constructor; unfold consistent, consistent_by; simpl; constructor. Qed.

Lemma reachable_well_formed (s : Store.t) : reachable s -> well_formed s.
Proof.
  induction 1 as [| env s _ IH | fails s _ IH | fails s _ IH
                  | run color s _ IH Hclock Hfault].
  - exact well_formed_empty.
  - now apply well_formed_seed.
  - now destruct fails.
  - now destruct fails.
  - now apply well_formed_assign_run.
Qed.

Lemma targets_agree (s : Store.t) (p : Pixel.t) (a : Assignment.t) :
  well_formed s -> In p (Store.pixels s) -> In a (Store.assignments s) ->
  targets p a = targets_position p a.
Proof.
  intros Hwf Hp Ha. pose proof (wf_ledger s Hwf) as Hl.
  rewrite Forall_forall in Hl. destruct (Hl a Ha) as [p0 [Hp0 [Hid Hpos]]].
  unfold targets, targets_position. rewrite <- Hid, <- Hpos.
  destruct (Nat.eqb_spec (Pixel._id p0) (Pixel._id p)) as [E | E].
  - rewrite (NoDup_map_eq Pixel._id _ p0 p (wf_ids s Hwf) Hp0 Hp E).
    now rewrite Z.eqb_refl.
  - symmetry. apply Z.eqb_neq. intros E'. apply E. f_equal.
    exact (NoDup_map_eq Pixel.position _ p0 p (wf_positions s Hwf) Hp0 Hp E').
Qed.

Lemma consistent_by_position (s : Store.t) :
  well_formed s -> consistent_by targets_position s.
Proof.
  intros Hwf. pose proof (wf_consistent s Hwf) as Hc.
  unfold consistent, consistent_by in *. rewrite Forall_forall in *.
  intros p Hp. rewrite (Hc p Hp). unfold expected_color.
  rewrite (filter_ext_in (targets p) (targets_position p)); [reflexivity |].
  intros a Ha. now apply targets_agree with (s := s).
Qed.

(** C7, as stated, fails: from the seeded grid, which is consistent, the
    run of the assign route whose ledger write throws leads to a store in
    which a cell is red while no Assignment targets it. *)
Lemma ledger_failure_breaks_consistency :
  let run := Server.make_run (Server.fraction 1 2) 1000 Server.CreateFails in
  reachable (seeded 2)
  /\ consistent (seeded 2)
  /\ ~ consistent (snd (Server.assign run (JS.VString "#aa0000") (seeded 2)))
  /\ ~ consistent_by targets_position
        (snd (Server.assign run (JS.VString "#aa0000") (seeded 2))).
Proof.
  split; [apply reach_seed, reach_empty |].
  split; [repeat constructor |].
  split; unfold consistent, consistent_by; rewrite Forall_forall; intros H.
  all: specialize (H (Pixel.make 3 2 "#aa0000" 0));
    assert (Hin : In (Pixel.make 3 2 "#aa0000" 0)
                    (Store.pixels
                       (snd (Server.assign
                               (Server.make_run (Server.fraction 1 2) 1000
                                  Server.CreateFails)
                               (JS.VString "#aa0000") (seeded 2)))))
      by (simpl; auto);
    specialize (H Hin); discriminate H.
Qed.

(** C7, amended: in every store reached from the empty one by the seeding
    script, the two reads and the runs of the assign route whose ledger
    write does not throw, the clock never running backwards, each cell shows
    the colour of the most recent Assignment targeting its position, or
    blank if there is none; this holds whether an Assignment is matched to
    its cell by [pixelId] or by [position]. *)
Theorem reachable_consistent (s : Store.t) :
  reachable s -> consistent s /\ consistent_by targets_position s.
Proof.
  intros H. apply reachable_well_formed in H. split.
  - now apply wf_consistent.
  - now apply consistent_by_position.
Qed.

Lemma reachable_consistent_witness :
  let s :=
    snd (Server.assign
           (Server.make_run (Server.fraction 1 2) 1000 Server.NoFault)
           (JS.VString "#aa0000") (seeded 2)) in
  consistent s /\ consistent_by targets_position s.
Proof.
  apply reachable_consistent.
  apply reach_assign.
  - apply reach_seed, reach_empty.
  - constructor.
  - discriminate.
Defined.

(** * Further properties of the code *)

(** ** The seeding script *)

Lemma sort_by_sorted_id {A : Type} (leb : A -> A -> bool) (l : list A) :
  Sorted (ordered_by leb) l -> sort_by leb l = l.
Proof.
  induction 1 as [|a r Hr IH Hhd]; simpl; [reflexivity |].
  rewrite IH. destruct Hhd as [|b r' Hab]; simpl; [reflexivity |].
  unfold ordered_by in Hab. now rewrite Hab.
Qed.

Lemma seq_sorted_by_position (f : nat -> Pixel.t) (a n : nat) :
  (forall i, Pixel.position (f i) = Z.of_nat i) ->
  Sorted
    (ordered_by (fun p q => Z.leb (Pixel.position p) (Pixel.position q)))
    (map f (seq a n)).
Proof.
  intros Hf. revert a. induction n as [|n IH]; intros a; simpl.
  - constructor.
  - constructor; [apply IH |].
    destruct n; simpl; constructor.
    unfold ordered_by. rewrite !Hf. apply Z.leb_le. lia.
Qed.

(** The cells a bulk insert of the first [m] seed documents creates. *)
Lemma insert_each_seq (canvas : ObjectId) (m a oid : nat) :
  Queries.Pixel_insert_each
    (map (fun pos => (Z.of_nat pos, "#ffffff", canvas)) (seq a m)) oid
  = map (fun i => Pixel.make (oid + (i - a)) (Z.of_nat i) "#ffffff" canvas)
      (seq a m).
Proof.
  revert a oid. induction m as [|m IH]; intros a oid; simpl; [reflexivity |].
  rewrite IH. f_equal.
  - f_equal. lia.
  - apply map_ext_in. intros i Hi. apply in_seq in Hi. f_equal. lia.
Qed.

Lemma seed_noop_on_cells (env : Seed.Env) (s : Store.t) :
  well_formed s -> Store.pixels s <> [] -> snd (Seed.run env s) = s.
Proof.
  intros Hwf Hne.
  destruct (seed_run_cases env s)
    as [H | [[Hnil _] | [[cv [rest [k [Hcv [Hnone _]]]]] | [k [Hnil _]]]]].
  - exact H.
  - now apply no_canvas_no_pixels in Hnil.
  - exfalso. pose proof (wf_canvas s Hwf) as Hc. rewrite Hcv in Hc. simpl in Hc.
    destruct (Store.pixels s) as [|p r]; [congruence |].
    inversion Hc as [|? ? Hp _]. inversion Hp; subst. simpl in Hnone.
    rewrite Nat.eqb_refl in Hnone. discriminate.
  - now apply no_canvas_no_pixels in Hnil.
Qed.

(** X1: on a store that already holds cells the seeding script writes
    nothing, whatever its environment and whichever call fails. *)
Theorem seed_leaves_grid_alone (env : Seed.Env) (s : Store.t) :
  reachable s -> Store.pixels s <> [] -> snd (Seed.run env s) = s.
Proof.
  intros Hr Hne. apply seed_noop_on_cells; [| exact Hne].
  now apply reachable_well_formed.
Qed.

Lemma seed_leaves_grid_alone_witness :
  snd (Seed.run (Seed.make_env (Some "mongodb://localhost/pixelpitch") 3
                   Seed.NoFault)
         (seeded 2))
  = seeded 2.
Proof.
  apply seed_leaves_grid_alone.
  - apply reach_seed, reach_empty.
  - discriminate.
Defined.

(** X2: a fault-free run on the empty store exits with code 0 and leaves
    one canvas, no Assignment and [N * N] blank cells whose positions are
    [0] to [N * N - 1] in natural order; the grid read then returns the
    cells in that same order. *)
Theorem seed_builds_dense_blank_grid (uri : string) (N : nat) :
  let env := Seed.make_env (Some uri) N Seed.NoFault in
  let out := Seed.run env Store.empty in
  (if String.eqb uri "" then out = (1%nat, Store.empty)
   else
     fst out = 0%nat
     /\ List.length (Store.canvases (snd out)) = 1%nat
     /\ Store.assignments (snd out) = []
     /\ map Pixel.position (Store.pixels (snd out))
        = map Z.of_nat (seq 0 (N * N))
     /\ Forall (fun p => Pixel.color p = "#ffffff") (Store.pixels (snd out))
     /\ fst (Server.all false (snd out))
        = Server.json 200 (Server.Pixels (Store.pixels (snd out)))).
Proof.
  intros env out. subst out env.
  unfold Seed.run, Store.respond, Seed.missing.
  cbn [Seed.MONGODB_URI Seed.fault Seed.canvasSize].
  destruct (String.eqb uri ""); [reflexivity |].
  simpl. unfold Seed.docs. rewrite insert_each_seq.
  repeat split.
  - rewrite map_map. reflexivity.
  - apply Forall_map, Forall_forall. intros i _. reflexivity.
  - unfold Server.all, Store.respond. simpl. do 2 f_equal.
    apply sort_by_sorted_id, seq_sorted_by_position. reflexivity.
Qed.

(** X3: a bulk insert that fails after [k] documents exits with code 1 and
    leaves the first [min k (N * N)] cells behind; no later run of the
    script, whatever its environment, completes the grid. *)
Theorem partial_seed_is_permanent (uri : string) (N k : nat) (env' : Seed.Env) :
  String.eqb uri "" = false -> (0 < N)%nat -> (0 < k)%nat ->
  let out :=
    Seed.run (Seed.make_env (Some uri) N (Seed.InsertFails k)) Store.empty in
  fst out = 1%nat
  /\ map Pixel.position (Store.pixels (snd out))
     = map Z.of_nat (seq 0 (Nat.min k (N * N)))
  /\ snd (Seed.run env' (snd out)) = snd out.
Proof.
  intros Huri HN Hk out.
  assert (Hwf : well_formed (snd out))
    by (apply well_formed_seed, well_formed_empty).
  assert (Hout : fst out = 1%nat
                 /\ map Pixel.position (Store.pixels (snd out))
                    = map Z.of_nat (seq 0 (Nat.min k (N * N)))).
  { subst out. unfold Seed.run, Store.respond, Seed.missing.
    cbn [Seed.MONGODB_URI Seed.fault Seed.canvasSize]. rewrite Huri.
    simpl. unfold Seed.docs. rewrite firstn_map, firstn_seq_min, insert_each_seq.
    split; [reflexivity |]. now rewrite map_map. }
  destruct Hout as [Hcode Hpos].
  split; [exact Hcode |]. split; [exact Hpos |].
  apply seed_noop_on_cells; [exact Hwf |].
  intros Hnil. rewrite Hnil in Hpos. simpl in Hpos.
  destruct (Nat.min k (N * N)) eqn:E; [nia | discriminate Hpos].
Qed.

Lemma partial_seed_is_permanent_witness :
  snd (Seed.run (Seed.make_env (Some "mongodb://localhost/pixelpitch") 2
                   Seed.NoFault)
         partly_seeded)
  = partly_seeded.
Proof.
  refine (proj2 (proj2 (partial_seed_is_permanent
                          "mongodb://localhost/pixelpitch" 2 3
                          (Seed.make_env (Some "mongodb://localhost/pixelpitch")
                             2 Seed.NoFault) _ _ _))).
  - reflexivity.
  - lia.
  - lia.
Defined.

(** ** The assign route *)

Lemma repaint_id (pixel : Pixel.t) (color : string) (q : Pixel.t) :
  Pixel._id (repaint pixel color q) = Pixel._id q.
Proof.
  unfold repaint.
  destruct (Nat.eqb_spec (Pixel._id q) (Pixel._id pixel)) as [E | E];
    [now rewrite E | reflexivity].
Qed.

(** The three ways a run of the assign route can end. *)
Lemma assign_outcomes (run : Server.Run) (color : JS.value) (s : Store.t) :
  (snd (Server.assign run color s) = s
   /\ Server.status (fst (Server.assign run color s)) <> 200%nat)
  \/ (exists pixel c,
        picked run s = Some pixel /\ color = JS.VString c
        /\ Server.fault run = Server.CreateFails
        /\ Server.assign run color s = (server_error, painted s pixel c))
  \/ (exists pixel c,
        picked run s = Some pixel /\ color = JS.VString c
        /\ Server.fault run = Server.NoFault
        /\ Server.assign run color s
           = (assigned s pixel c, logged (painted s pixel c) pixel c (Server.now run))).
Proof.
  destruct (picked run s) as [pixel|] eqn:Hp;
    [| left; now apply assign_not_picked].
  destruct (Server.required_string color) as [c|] eqn:Hreq.
  - rewrite required_string_spec in Hreq.
    destruct color as [| |b|x|c0|r0|r0]; try discriminate.
    destruct c0 as [|a r]; [discriminate |]. inversion Hreq; subst c.
    rewrite (assign_picked _ _ _ _ _ Hp).
    destruct (Server.fault run) eqn:Hf;
      try (left; split; [reflexivity | discriminate]).
    + right. right. exists pixel, (String a r). repeat split; assumption.
    + right. left. exists pixel, (String a r). repeat split; assumption.
  - left. rewrite (assign_rejected _ _ _ Hreq). split; [reflexivity | discriminate].
Qed.

(** X4: whatever the request, the random number, the clock and the fault,
    a run of the assign route keeps the canvases, the number of cells and
    their identities, and only ever appends to the ledger, one entry at
    most. *)
Theorem assign_never_drops (run : Server.Run) (color : JS.value) (s : Store.t) :
  let s' := snd (Server.assign run color s) in
  Store.canvases s' = Store.canvases s
  /\ map Pixel._id (Store.pixels s') = map Pixel._id (Store.pixels s)
  /\ (Store.next_oid s <= Store.next_oid s')%nat
  /\ exists added,
       Store.assignments s' = Store.assignments s ++ added
       /\ (List.length added <= 1)%nat.
Proof.
  intros s'. subst s'.
  assert (Hids : forall pixel c,
             map Pixel._id (map (repaint pixel c) (Store.pixels s))
             = map Pixel._id (Store.pixels s)).
  { intros pixel c. rewrite map_map. apply map_ext. intros q.
    apply repaint_id. }
  destruct (assign_outcomes run color s)
    as [[-> _] | [[pixel [c [_ [_ [_ ->]]]]] | [pixel [c [_ [_ [_ ->]]]]]]];
    simpl.
  - split; [reflexivity |]. split; [reflexivity |]. split; [lia |].
    exists []. split; [now rewrite app_nil_r | simpl; lia].
  - split; [reflexivity |]. split; [apply Hids |]. split; [lia |].
    exists []. split; [now rewrite app_nil_r | simpl; lia].
  - split; [reflexivity |]. split; [apply Hids |]. split; [lia |].
    eexists. split; [reflexivity | simpl; lia].
Qed.



Lemma round_sqrt_square (N : nat) : Server.round_sqrt (N * N) = N.
Proof.
  unfold Server.round_sqrt. rewrite Nat.sqrt_square.
  destruct (Nat.ltb_spec (N * N + N) (N * N)); [lia | reflexivity].
Qed.

(** X6: on a complete grid of side [N] (positions [0] to [N * N - 1]) the
    coordinates the route reports lie inside the grid and recompose to the
    position of the cell: [position = y * N + x]. *)
Theorem assign_coordinates_on_square_grid (N : nat) (run : Server.Run)
  (color : JS.value) (s : Store.t) (c : string) (id : ObjectId)
  (position x y : Z) :
  map Pixel.position (Store.pixels s) = map Z.of_nat (seq 0 (N * N)) ->
  fst (Server.assign run color s)
  = Server.json 200 (Server.Assigned c id position x y) ->
  (0 <= x < Z.of_nat N)%Z /\ (0 <= y < Z.of_nat N)%Z
  /\ position = (y * Z.of_nat N + x)%Z.
Proof.
  intros Hgrid Hres.
  destruct (assign_outcomes run color s)
    as [[_ Hno] | [[pixel [c' [_ [_ [_ Heq]]]]] | [pixel [c' [Hp [_ [_ Heq]]]]]]].
  - rewrite Hres in Hno. now contradiction Hno.
  - rewrite Heq in Hres. discriminate.
  - rewrite Heq in Hres. unfold assigned in Hres. simpl in Hres.
    assert (Hlen : List.length (Store.pixels s) = (N * N)%nat).
    { apply (f_equal (@List.length _)) in Hgrid.
      now rewrite !length_map, length_seq in Hgrid. }
    rewrite Hlen, round_sqrt_square in Hres.
    unfold picked in Hp. apply nth_error_In in Hp.
    apply (in_map Pixel.position) in Hp. rewrite Hgrid in Hp.
    apply in_map_iff in Hp. destruct Hp as [i [Hi Hin]]. apply in_seq in Hin.
    inversion Hres; subst c id position x y. rewrite <- Hi.
    assert (HN : (0 < Z.of_nat N)%Z) by nia.
    rewrite Z.rem_mod_nonneg by lia.
    pose proof (Z.mod_pos_bound (Z.of_nat i) (Z.of_nat N) HN) as Hm.
    pose proof (Z.div_mod (Z.of_nat i) (Z.of_nat N)) as Hd.
    assert (0 <= Z.of_nat i / Z.of_nat N)%Z by (apply Z.div_pos; lia).
    assert (Z.of_nat i / Z.of_nat N < Z.of_nat N)%Z
      by (apply Z.div_lt_upper_bound; nia).
    repeat split; lia.
Qed.

Lemma assign_coordinates_on_square_grid_witness :
  (0 <= 1 < Z.of_nat 2)%Z /\ (0 <= 1 < Z.of_nat 2)%Z
  /\ 3%Z = (1 * Z.of_nat 2 + 1)%Z.
Proof.
  apply (assign_coordinates_on_square_grid 2
           (Server.make_run (Server.fraction 9 10) 1000 Server.NoFault)
           (JS.VString "#aa0000") (seeded 2) "#aa0000" 4 3 1 1).
  - reflexivity.
  - reflexivity.
Defined.

(** ** The reads after an assignment *)


Lemma insert_by_map {A : Type} (leb : A -> A -> bool) (f : A -> A) (a : A)
  (l : list A) :
  (forall x y, leb (f x) (f y) = leb x y) ->
  insert_by leb (f a) (map f l) = map f (insert_by leb a l).
Proof.
  intros Hf. induction l as [|b r IH]; simpl; [reflexivity |].
  rewrite Hf. destruct (leb a b); simpl; [reflexivity | now rewrite IH].
Qed.

Lemma sort_by_map {A : Type} (leb : A -> A -> bool) (f : A -> A) (l : list A) :
  (forall x y, leb (f x) (f y) = leb x y) ->
  sort_by leb (map f l) = map f (sort_by leb l).
Proof.
  intros Hf. induction l as [|a r IH]; simpl; [reflexivity |].
  rewrite IH. now apply insert_by_map.
Qed.




(** X8: after an answer of 200 on a store reached by the operations, the
    grid read returns what it returned before with the one cell of the
    reported identity repainted in the reported colour, every other cell
    and the order being the same. *)
Theorem assign_then_all (run : Server.Run) (color : JS.value) (s : Store.t)
  (before : list Pixel.t) :
  reachable s ->
  Server.status (fst (Server.assign run color s)) = 200%nat ->
  fst (Server.all false s) = Server.json 200 (Server.Pixels before) ->
  exists c id position x y,
    Server.body (fst (Server.assign run color s))
    = Server.Assigned c id position x y
    /\ fst (Server.all false (snd (Server.assign run color s)))
       = Server.json 200
           (Server.Pixels
              (map (fun q => if Nat.eqb (Pixel._id q) id
                             then Pixel.set_color q c else q)
                 before)).
Proof.
  intros Hreach Hok Hbefore. apply reachable_well_formed in Hreach.
  destruct (assign_outcomes run color s)
    as [[_ Hno] | [[pixel [c [_ [_ [_ Heq]]]]] | [pixel [c [Hp [_ [_ Heq]]]]]]].
  - contradiction.
  - rewrite Heq in Hok. discriminate.
  - rewrite Heq. simpl fst. simpl snd.
    exists c, (Pixel._id pixel), (Pixel.position pixel). do 2 eexists.
    split; [reflexivity |].
    unfold Server.all, Store.respond in *. simpl in *.
    inversion Hbefore as [Hb]. clear Hbefore. do 2 f_equal.
    unfold picked in Hp. apply nth_error_In in Hp.
    rewrite (map_ext_in (repaint pixel c)
               (fun q => if Nat.eqb (Pixel._id q) (Pixel._id pixel)
                         then Pixel.set_color q c else q)).
    + apply sort_by_map. intros a b.
      destruct (Nat.eqb (Pixel._id a) (Pixel._id pixel)),
        (Nat.eqb (Pixel._id b) (Pixel._id pixel)); reflexivity.
    + intros q Hq. unfold repaint.
      destruct (Nat.eqb_spec (Pixel._id q) (Pixel._id pixel)) as [E | E];
        [| reflexivity].
      now rewrite (repaint_same_cell s pixel Hreach Hp q Hq E).
Qed.

Lemma assign_then_all_witness :
  exists c id position x y,
    Server.body
      (fst (Server.assign
              (Server.make_run (Server.fraction 1 2) 1000 Server.NoFault)
              (JS.VString "#aa0000") (seeded 2)))
    = Server.Assigned c id position x y
    /\ fst (Server.all false
              (snd (Server.assign
                      (Server.make_run (Server.fraction 1 2) 1000 Server.NoFault)
                      (JS.VString "#aa0000") (seeded 2))))
       = Server.json 200
           (Server.Pixels
              (map (fun q => if Nat.eqb (Pixel._id q) id
                             then Pixel.set_color q c else q)
                 (Store.pixels (seeded 2)))).
Proof.
  apply (assign_then_all
           (Server.make_run (Server.fraction 1 2) 1000 Server.NoFault)
           (JS.VString "#aa0000") (seeded 2) (Store.pixels (seeded 2))).
  - apply reach_seed, reach_empty.
  - reflexivity.
  - reflexivity.
Defined.

(** ** The checkout route of the Express server, continued *)


Lemma list_ascii_of_string_app (a b : string) :
  list_ascii_of_string (a ++ b)
  = (list_ascii_of_string a ++ list_ascii_of_string b)%list.
Proof.
  induction a as [|c r IH]; simpl; [reflexivity | now rewrite IH].
Qed.

Lemma encode_unit_safeb (c : ascii) :
  forallb (fun ch => URI.unreserved (nat_of_ascii ch) || Ascii.eqb ch "%")
    (list_ascii_of_string (URI.encode_unit c)) = true.
Proof.
  destruct c as [[] [] [] [] [] [] [] []]; vm_compute; reflexivity.
Qed.

Lemma encode_unit_safe (c : ascii) :
  Forall (fun ch => URI.unreserved (nat_of_ascii ch) = true \/ ch = "%"%char)
    (list_ascii_of_string (URI.encode_unit c)).
Proof.
  apply Forall_forall. intros ch Hin.
  pose proof (encode_unit_safeb c) as H. rewrite forallb_forall in H.
  specialize (H ch Hin). apply orb_true_iff in H.
  destruct H as [H | H]; [now left | right; now apply Ascii.eqb_eq].
Qed.

Lemma encodeURIComponent_safe (s : string) :
  Forall (fun ch => URI.unreserved (nat_of_ascii ch) = true \/ ch = "%"%char)
    (list_ascii_of_string (URI.encodeURIComponent s)).
Proof.
  induction s as [|c r IH]; simpl; [constructor |].
  rewrite list_ascii_of_string_app. apply Forall_app. split; [| exact IH].
  apply encode_unit_safe.
Qed.

(** X10: the colour cannot add a parameter of its own to the success URL:
    what the route appends after [&color=] consists of letters, digits,
    [- _ . ! ~ * ' ( )] and percent signs only, so it holds no [&], [=],
    [#], [?], [+], [/] or space, whatever the colour string. *)
Theorem checkout_success_url_is_escaped (env : Checkout.Env)
  (stripe : Checkout.Gateway) (c : ascii) (r : string) :
  exists p escaped,
    fst (Checkout.create_checkout_session env stripe (JS.VString (String c r)))
    = [p]
    /\ Checkout.success_url p
       = (Checkout.env_or (Checkout.STRIPE_SUCCESS_URL env)
            "http://localhost:3000/pitch?success=true"
          ++ "&color=" ++ escaped)%string
    /\ escaped = URI.encodeURIComponent (String c r)
    /\ Forall (fun ch => URI.unreserved (nat_of_ascii ch) = true \/ ch = "%"%char)
         (list_ascii_of_string escaped)
    /\ Forall (fun ch => ~ In ch (list_ascii_of_string "&=#?+/ "))
         (list_ascii_of_string escaped).
Proof.
  unfold Checkout.create_checkout_session. rewrite required_string_spec.
  change (String.eqb (String c r) "") with false. cbv iota zeta.
  match goal with
  | |- context [stripe ?q] =>
      exists q, (URI.encodeURIComponent (String c r));
      split; [now destruct (stripe q) as [[? ?]|] |]
  end.
  split; [reflexivity |]. split; [reflexivity |].
  split; [apply encodeURIComponent_safe |].
  eapply Forall_impl; [| apply encodeURIComponent_safe].
  intros ch Hsafe Hin. simpl in Hin.
  repeat (destruct Hin as [<- | Hin];
          [destruct Hsafe as [H | H]; [vm_compute in H |]; discriminate H |]).
  exact Hin.
Qed.

(** ** The pitch page on load *)

Lemma assignPixelAfterPayment_inj (API_BASE c d : string) :
  Pitch.assignPixelAfterPayment API_BASE c
  = Pitch.assignPixelAfterPayment API_BASE d -> c = d.
Proof. unfold Pitch.assignPixelAfterPayment. congruence. Qed.

(** X11: on load the page sends at most one request, and it sends the
    assign request for colour [c] exactly when the first [success]
    parameter is [true] and the first [color] parameter is [c], not empty;
    it moves to the processing stage exactly when it sends, and back to
    the selection stage exactly when it does not send and the first
    [canceled] parameter is [true]. *)
Theorem on_load_sends_exactly_when (API_BASE : string)
  (params : Pitch.URLSearchParams) :
  let sent := snd (Pitch.on_load API_BASE params) in
  let stage := fst (Pitch.on_load API_BASE params) in
  (sent = [] \/ exists c, sent = [Pitch.assignPixelAfterPayment API_BASE c])
  /\ (forall c,
        sent = [Pitch.assignPixelAfterPayment API_BASE c]
        <-> (Pitch.get "success" params = Some "true"
             /\ Pitch.get "color" params = Some c /\ c <> ""))
  /\ (stage = Some Pitch.processing <-> sent <> [])
  /\ (stage = Some Pitch.select
      <-> (sent = [] /\ Pitch.get "canceled" params = Some "true")).
Proof.
  intros sent stage. subst sent stage. unfold Pitch.on_load, Pitch.is_true,
    Pitch.nonempty.
  destruct (Pitch.get "success" params) as [s|];
    destruct (Pitch.get "color" params) as [c|];
    destruct (Pitch.get "canceled" params) as [k|];
    try destruct (String.eqb_spec s "true") as [-> | Hs];
    try destruct (String.eqb_spec k "true") as [-> | Hk];
    try (destruct c as [|c0 c1]; simpl);
    (split; [first [now left | right; eexists; reflexivity] |]);
    (split; [intros d; split;
             [ intros H; first [discriminate H
                               | apply assignPixelAfterPayment_inj in H;
                                 try (injection H as H); subst;
                                 repeat split; congruence
                               | inversion H; subst; repeat split; congruence ]
             | intros [H1 [H2 H3]]; congruence ] |]);
    (split; split; try discriminate; try congruence; try tauto;
     try (intros [H1 H2]; congruence); try (intros H; split; congruence)).
Qed.

(** ** The pitch page and the Express server, end to end *)

(** The answers the assign route can give. *)
Lemma assign_response_forms (run : Server.Run) (color : JS.value) (s : Store.t) :
  (exists pixel c, fst (Server.assign run color s) = assigned s pixel c)
  \/ (exists status e,
        fst (Server.assign run color s) = Server.json status (Server.Error e)
        /\ status <> 200%nat /\ e <> "").
Proof.
  destruct (assign_outcomes run color s)
    as [[_ Hno] | [[pixel [c [_ [_ [_ Heq]]]]] | [pixel [c [_ [_ [_ Heq]]]]]]].
  - right. revert Hno.
    unfold Server.assign, Store.respond, Store.bind, Store.await, Store.ret,
      Store.throw.
    destruct (Server.required_string color);
      [| intros _; do 2 eexists; split; [reflexivity | split; discriminate]].
    destruct (Server.fault run); simpl;
      destruct (List.length (Store.pixels s) =? 0)%nat; simpl;
      try destruct (nth_error _ _); simpl; intros Hno;
      try (now contradiction Hno);
      do 2 eexists; (split; [reflexivity | split; discriminate]).
  - right. rewrite Heq. do 2 eexists.
    split; [reflexivity | split; discriminate].
  - left. rewrite Heq. now exists pixel, c.
Qed.

(** X12: the done stage tells the buyer the truth about the assign route:
    it reports success exactly when the route answered 200, and otherwise
    shows the error text of the route's answer, which is never empty. *)
Theorem done_view_reflects_assign (oid_string : ObjectId -> string)
  (run : Server.Run) (color : JS.value) (s : Store.t) (st : PitchFlow.State) :
  let answer := fst (Server.assign run color s) in
  let view :=
    PitchFlow.done_view (PitchFlow.assigned st (fetched oid_string answer)) in
  (Server.status answer = 200%nat
   /\ view = PitchFlow.Successful (parsed_body oid_string (Server.body answer)))
  \/ (Server.status answer <> 200%nat
      /\ exists e,
           Server.body answer = Server.Error e /\ e <> ""
           /\ view = PitchFlow.ErrorAssigning (JS.VString e)).
Proof.
  intros answer view. subst view answer.
  destruct (assign_response_forms run color s)
    as [[pixel [c ->]] | [status [e [-> [Hs He]]]]].
  - left. split; reflexivity.
  - right. split; [exact Hs |]. exists e. split; [reflexivity |].
    split; [exact He |].
    unfold PitchFlow.done_view, PitchFlow.assigned, fetched. simpl.
    destruct e; [congruence | reflexivity].
Qed.




(** X14: a checkout started on the pitch page, end to end.  With a colour
    chosen, the Express route asks the gateway for one session whose amount
    is the price the page computes for that colour; the page is sent to the
    session's address when the gateway gives one, and otherwise stays, no
    longer redirecting, with the route's error text, or with its own when
    the session has no address. *)
Theorem checkout_end_to_end (oid_string : ObjectId -> string)
  (reading_null : string -> string) (API_BASE : string) (env : Checkout.Env)
  (stripe : Checkout.Gateway) (st : PitchFlow.State) :
  exists sessions answer,
    serve_checkout API_BASE env stripe (PitchFlow.checkout_request API_BASE st)
    = Some (sessions, answer)
    /\ let after :=
         PitchFlow.handleCheckout reading_null st (fetched oid_string answer) in
       match PitchFlow.selectedColor st with
       | EmptyString =>
           sessions = []
           /\ snd after = None
           /\ PitchFlow.error (fst after) = JS.VString Server.color_required
           /\ PitchFlow.isRedirecting (fst after) = false
       | String _ _ =>
           exists p,
             sessions = [p]
             /\ Checkout.unit_amount p
                = Pitch.getPriceForColor (PitchFlow.selectedColor st)
             /\ match stripe p with
                | Some (_, String a u) =>
                    snd after = Some (JS.VString (String a u))
                    /\ PitchFlow.isRedirecting (fst after) = true
                    /\ PitchFlow.error (fst after) = JS.VNull
                | Some (_, EmptyString) =>
                    snd after = None
                    /\ PitchFlow.isRedirecting (fst after) = false
                    /\ PitchFlow.error (fst after)
                       = JS.VString "Error creating checkout session"
                | None =>
                    snd after = None
                    /\ PitchFlow.isRedirecting (fst after) = false
                    /\ PitchFlow.error (fst after)
                       = JS.VString "Error creating Stripe Checkout session"
                end
       end.
Proof.
  unfold serve_checkout, PitchFlow.checkout_request. simpl Pitch.url.
  simpl Pitch.method. rewrite String.eqb_refl. simpl andb. cbv iota.
  do 2 eexists. split; [rewrite <- surjective_pairing; reflexivity |].
  simpl Pitch.body.
  change (JS.get [("color", JS.VString (PitchFlow.selectedColor st))] "color")
    with (JS.VString (PitchFlow.selectedColor st)).
  destruct (PitchFlow.selectedColor st) as [|c r] eqn:Hc.
  - repeat split.
  - rewrite getPriceForColor_mirror.
    unfold Checkout.create_checkout_session. rewrite required_string_spec.
    change (String.eqb (String c r) "") with false. cbv iota zeta.
    match goal with
    | |- context [stripe ?q] =>
        exists q; destruct (stripe q) as [[id [|a u]]|]
    end; repeat split.
Qed.

(** ** The local pitch page *)

Lemma array_set_in_range (l : list PitchPage.Slot) (idx : nat)
  (v : PitchPage.Slot) :
  (idx < List.length l)%nat ->
  PitchPage.array_set l idx v = firstn idx l ++ v :: skipn (S idx) l.
Proof.
  intros H. unfold PitchPage.array_set.
  destruct (Nat.ltb_spec idx (List.length l)); [reflexivity | lia].
Qed.


Lemma length_replace {A : Type} (l : list A) (idx : nat) (v : A) :
  (idx < List.length l)%nat ->
  List.length (firstn idx l ++ v :: skipn (S idx) l) = List.length l.
Proof.
  revert idx. induction l as [|a r IH]; intros idx H; simpl in H; [lia |].
  destruct idx as [|idx]; simpl; [reflexivity |]. rewrite IH; [reflexivity | lia].
Qed.

Lemma Forall_replace {A : Type} (P : A -> Prop) (l : list A) (idx : nat) (v : A) :
  Forall P l -> P v -> Forall P (firstn idx l ++ v :: skipn (S idx) l).
Proof.
  intros Hl Hv. revert idx.
  induction Hl as [|a r Ha Hr IH]; intros idx.
  - destruct idx; simpl; repeat constructor; exact Hv.
  - destruct idx as [|idx]; simpl.
    + constructor; [exact Hv | exact Hr].
    + constructor; [exact Ha | apply IH].
Qed.

Lemma grid_intact_set (st : PitchPage.State) (idx : nat) (c : string)
  (sel : option nat) (col : string) (busy : bool) (msg : option string) :
  grid_intact st ->
  (idx < PitchPage.GRID_SIZE * PitchPage.GRID_SIZE)%nat ->
  sel = Some idx ->
  grid_intact
    (PitchPage.make_state
       (PitchPage.array_set (PitchPage.pixels st) idx
          (PitchPage.Cell (PitchPage.make_pixel (Some c))))
       sel col busy msg).
Proof.
  intros [Hlen [Hcells Hsel]] Hidx ->. unfold grid_intact. simpl PitchPage.pixels.
  simpl PitchPage.selectedIndex.
  rewrite array_set_in_range by (rewrite Hlen; exact Hidx).
  split; [| split].
  - rewrite length_replace; [exact Hlen | rewrite Hlen; exact Hidx].
  - apply Forall_replace; [exact Hcells | discriminate].
  - intros i Hi. inversion Hi; subst. exact Hidx.
Qed.

Lemma grid_intact_same_grid (st : PitchPage.State) (sel : option nat)
  (col : string) (busy : bool) (msg : option string) :
  grid_intact st ->
  (forall idx, sel = Some idx ->
               (idx < PitchPage.GRID_SIZE * PitchPage.GRID_SIZE)%nat) ->
  grid_intact (PitchPage.make_state (PitchPage.pixels st) sel col busy msg).
Proof.
  intros [Hlen [Hcells _]] Hsel. unfold grid_intact. simpl. auto.
Qed.

Lemma returned_in_range (z : Z) :
  ((0 <=? z) && (z <? Z.of_nat (PitchPage.GRID_SIZE * PitchPage.GRID_SIZE)))%Z
  = true ->
  (Z.to_nat z < PitchPage.GRID_SIZE * PitchPage.GRID_SIZE)%nat.
Proof.
  intros H. apply andb_true_iff in H. destruct H as [H0 H1].
  apply Z.leb_le in H0. apply Z.ltb_lt in H1. lia.
Qed.

Lemma grid_intact_step (st st' : PitchPage.State) :
  grid_intact st -> PitchPage.step st st' -> grid_intact st'.
Proof.
  intros Hst Hstep. pose proof Hst as [Hlen [Hcells Hsel]].
  destruct Hstep as [stored st | params st | index st Hidx | value st | st
                     | answer st].
  - destruct stored as [| | |items]; try exact Hst. unfold PitchPage.restore.
    destruct (Nat.eqb_spec (List.length items)
                (PitchPage.GRID_SIZE * PitchPage.GRID_SIZE)) as [E | E];
      [| exact Hst].
    unfold grid_intact. simpl PitchPage.pixels. simpl PitchPage.selectedIndex.
    rewrite length_map. split; [exact E |]. split; [| exact Hsel].
    apply Forall_map, Forall_forall. intros p _. discriminate.
  - unfold PitchPage.returned.
    destruct (Pitch.get "status" params) as [status|]; [| exact Hst].
    destruct (Pitch.nonempty (Pitch.get "pixelIndex" params)) as [ip|];
      [| exact Hst].
    destruct (Pitch.nonempty (Pitch.get "color" params)) as [cp|]; [| exact Hst].
    destruct (String.eqb status "success"); [| exact Hst].
    cbn [fst].
    destruct (PitchPage.parseInt ip) as [z|]; [| exact Hst].
    destruct ((0 <=? z) && _)%Z eqn:Hrange; [| exact Hst].
    apply grid_intact_set; [exact Hst | now apply returned_in_range | reflexivity].
  - apply grid_intact_same_grid; [exact Hst |].
    intros idx Hi. inversion Hi; subst. now rewrite <- Hlen.
  - apply grid_intact_same_grid; [exact Hst | exact Hsel].
  - unfold PitchPage.handlePreviewColor.
    destruct (PitchPage.selectedIndex st) as [idx|] eqn:Hi.
    + apply grid_intact_set; [exact Hst | now apply Hsel | reflexivity].
    + apply grid_intact_same_grid; [exact Hst | discriminate].
  - unfold PitchPage.handleCheckout.
    destruct (PitchPage.selectedIndex st) as [idx|] eqn:Hi.
    + assert (Hok : forall busy msg,
                 grid_intact
                   (PitchPage.make_state (PitchPage.pixels st) (Some idx)
                      (PitchPage.selectedColor st) busy msg)).
      { intros busy msg. apply grid_intact_same_grid; [exact Hst |].
        intros i H. inversion H; subst. now apply Hsel. }
      destruct answer as [m | ok | ok data]; cbn [fst]; try apply Hok.
      destruct (negb ok); cbn [fst]; [apply Hok |].
      destruct (JS.truthy _); cbn [fst]; apply Hok.
    + cbn [fst]. apply grid_intact_same_grid; [exact Hst | discriminate].
Qed.

Lemma grid_intact_initial : grid_intact PitchPage.initial.
Proof.
  unfold grid_intact, PitchPage.initial, PitchPage.createInitialPixels.
  cbn [PitchPage.pixels PitchPage.selectedIndex].
  split; [apply repeat_length |]. split; [| discriminate].
  apply Forall_forall. intros slot Hin. apply repeat_spec in Hin.
  subst. discriminate.
Qed.

(** X15: whatever the user does and whatever the address and the local
    storage hold, the local pitch page keeps a grid of exactly 2500 pixels
    without a hole, and its selection, if any, inside the grid; so no write
    ever lengthens the grid. *)
Theorem local_grid_stays_intact (st : PitchPage.State) :
  PitchPage.reachable st -> grid_intact st.
Proof.
  induction 1 as [|st st' _ IH Hstep].
  - apply grid_intact_initial.
  - now apply grid_intact_step with (st := st).
Qed.

Lemma local_grid_stays_intact_witness :
  grid_intact
    (PitchPage.handlePreviewColor
       (PitchPage.handlePixelClick 2499 PitchPage.initial)).
Proof.
  apply local_grid_stays_intact.
  eapply PitchPage.reach_step; [| apply PitchPage.step_preview].
  eapply PitchPage.reach_step; [apply PitchPage.reach_initial |].
  apply PitchPage.step_click.
  unfold PitchPage.initial, PitchPage.createInitialPixels.
  cbn [PitchPage.pixels]. rewrite repeat_length.
  apply Nat.ltb_lt. vm_compute. reflexivity.
Defined.




(** X17: a checkout started on the local pitch page, end to end.  Without a
    selected pixel nothing is sent.  With one, and a colour, the Next.js
    route asks the gateway for one session of exactly 100 cents, whatever
    the colour and the pixel; the page is sent to the session's address
    when there is one, and otherwise stays with a message; in every case it
    is no longer checking out. *)
Theorem local_checkout_end_to_end (ToString : JS.value -> string)
  (stripe : NextApi.Gateway) (origin : option string) (st : PitchPage.State) :
  match PitchPage.selectedIndex st, PitchPage.selectedColor st with
  | None, _ => PitchPage.checkout_request st = None
  | Some idx, EmptyString =>
      exists f,
        PitchPage.checkout_request st = Some f
        /\ fst (NextApi.handler ToString stripe (next_request origin f)) = []
  | Some idx, String _ _ =>
      exists f p,
        PitchPage.checkout_request st = Some f
        /\ fst (NextApi.handler ToString stripe (next_request origin f)) = [p]
        /\ NextApi.unit_amount p = 100%float
        /\ NextApi.quantity p = 1%nat
        /\ let after :=
             PitchPage.handleCheckout st
               (next_fetched
                  (snd (NextApi.handler ToString stripe (next_request origin f)))) in
           PitchPage.isCheckingOut (fst after) = false
           /\ PitchPage.pixels (fst after) = PitchPage.pixels st
           /\ match stripe p with
              | Some (String a u) =>
                  snd after = Some (JS.VString (String a u))
                  /\ PitchPage.message (fst after) = None
              | Some EmptyString =>
                  snd after = None
                  /\ PitchPage.message (fst after)
                     = Some "Checkout created, but no redirect URL was returned."
              | None =>
                  snd after = None
                  /\ PitchPage.message (fst after)
                     = Some "Something went wrong starting checkout. Try again."
              end
  end.
Proof.
  unfold PitchPage.checkout_request, PitchPage.handleCheckout.
  destruct (PitchPage.selectedIndex st) as [idx|]; [| reflexivity].
  destruct (PitchPage.selectedColor st) as [|c r] eqn:Hc.
  - eexists. split; reflexivity.
  - eexists. unfold NextApi.handler, next_request. simpl.
    match goal with
    | |- context [stripe ?q] =>
        exists q; destruct (stripe q) as [[|a u]|]
    end; repeat split.
Qed.

(** ** The canvas pages and the server *)

Lemma sqrt_positive (n : nat) : (0 < n)%nat -> (0 < Nat.sqrt n)%nat.
Proof.
  intros Hn. pose proof (Nat.sqrt_spec n (Nat.le_0_l n)) as [_ Hhi].
  destruct (Nat.sqrt n); [simpl in Hhi; lia | lia].
Qed.

Lemma round_sqrt_pos (n : nat) : (0 < n)%nat -> (0 < Server.round_sqrt n)%nat.
Proof.
  intros Hn. unfold Server.round_sqrt.
  assert (0 < Nat.sqrt n)%nat by now apply sqrt_positive.
  destruct (_ <? _)%nat; lia.
Qed.

Lemma sort_by_length {A : Type} (leb : A -> A -> bool) (l : list A) :
  List.length (sort_by leb l) = List.length l.
Proof. apply Permutation_length, sort_by_perm. Qed.

Lemma by_position_order_length (l : list Pixel.t) :
  List.length (by_position_order l) = List.length l.
Proof. apply sort_by_length. Qed.

Lemma home_canvas_of_server (s : Store.t) (feed_fails : bool) (st : Home.State) :
  Home.renderCanvas
    (Home.loadData (Replied (fst (Server.all false s)))
       (Replied (fst (Server.recent_assignments feed_fails s))) st)
  = match Store.pixels s with
    | [] => Home.NoPixels
    | _ =>
        Home.Grid (Server.round_sqrt (List.length (Store.pixels s)))
          (map (drawn (Server.round_sqrt (List.length (Store.pixels s))))
             (by_position_order (Store.pixels s)))
    end.
Proof.
  unfold Home.renderCanvas, Home.loadData, Home.side, Home.count,
    Server.all, Store.respond. simpl.
  fold (by_position_order (Store.pixels s)).
  rewrite !by_position_order_length.
  destruct (Store.pixels s) as [|p r] eqn:Hp; [reflexivity |].
  rewrite <- Hp.
  assert (Hlen : (0 < List.length (Store.pixels s))%nat)
    by (rewrite Hp; simpl; lia).
  pose proof (round_sqrt_pos _ Hlen) as Hside.
  destruct (Nat.eqb_spec (List.length (Store.pixels s)) 0); [lia |].
  destruct (Nat.eqb_spec (Server.round_sqrt (List.length (Store.pixels s))) 0);
    [lia |].
  reflexivity.
Qed.

(** X18: the home page takes the server's answers as they come.  When the
    grid read fails, the canvas shows "No pixels found" and no error; when
    it succeeds the canvas shows the cells in the order of their positions
    on a square of side [round(sqrt(count))].  When the activity read fails
    the feed shows "No recent pixel activity yet". *)
Theorem home_view_of_server (s : Store.t) (grid_fails feed_fails : bool)
  (st : Home.State) :
  let st' :=
    Home.loadData (Replied (fst (Server.all grid_fails s)))
      (Replied (fst (Server.recent_assignments feed_fails s))) st in
  let side := Server.round_sqrt (List.length (Store.pixels s)) in
  Home.error st' = None
  /\ Home.renderCanvas st'
     = (if grid_fails then Home.NoPixels
        else
          match Store.pixels s with
          | [] => Home.NoPixels
          | _ => Home.Grid side (map (drawn side) (by_position_order (Store.pixels s)))
          end)
  /\ (feed_fails = true -> Home.renderActivity st' = Home.NoActivity)
  /\ (Store.assignments s = [] -> Home.renderActivity st' = Home.NoActivity).
Proof.
  intros st' side. subst st' side.
  split; [reflexivity |]. split; [| split].
  - destruct grid_fails; [reflexivity | apply home_canvas_of_server].
  - intros ->. reflexivity.
  - intros Hnone. destruct feed_fails; [reflexivity |].
    unfold Home.renderActivity, Home.loadData, Server.recent_assignments,
      Store.respond. simpl. now rewrite Hnone.
Qed.

Lemma positions_seq_sorted (l : list Pixel.t) (a n : nat) :
  map Pixel.position l = map Z.of_nat (seq a n) ->
  Sorted (ordered_by (fun p q => Z.leb (Pixel.position p) (Pixel.position q))) l.
Proof.
  revert a n. induction l as [|p r IH]; intros a n H; [constructor |].
  destruct n as [|n]; [discriminate |]. simpl in H. injection H as Hp Hr.
  constructor; [now apply (IH (S a) n) |].
  destruct r as [|q r']; constructor.
  destruct n as [|n]; [discriminate |]. simpl in Hr. injection Hr as Hq _.
  unfold ordered_by. rewrite Hp, Hq. apply Z.leb_le. lia.
Qed.

(** X19: on a complete grid of side [N] the home page draws a square of
    side [N] whose cells come in row-major order: the cell drawn in place
    [i] is the one at position [i], with coordinates inside the square that
    recompose to [i], in the colour it has in the store. *)
Theorem home_draws_complete_grid (N : nat) (s : Store.t) (feed_fails : bool)
  (st : Home.State) :
  (0 < N)%nat ->
  map Pixel.position (Store.pixels s) = map Z.of_nat (seq 0 (N * N)) ->
  exists cells,
    Home.renderCanvas
      (Home.loadData (Replied (fst (Server.all false s)))
         (Replied (fst (Server.recent_assignments feed_fails s))) st)
    = Home.Grid N cells
    /\ map Home.color cells = map Pixel.color (Store.pixels s)
    /\ forall i c,
         nth_error cells i = Some c ->
         Home.position c = Z.of_nat i
         /\ (0 <= Home.x c < Z.of_nat N)%Z
         /\ (0 <= Home.y c < Z.of_nat N)%Z
         /\ Z.of_nat i = (Home.y c * Z.of_nat N + Home.x c)%Z.
Proof.
  intros HN Hgrid.
  assert (Hlen : List.length (Store.pixels s) = (N * N)%nat).
  { apply (f_equal (@List.length _)) in Hgrid.
    now rewrite !length_map, length_seq in Hgrid. }
  rewrite home_canvas_of_server.
  unfold by_position_order.
  rewrite (sort_by_sorted_id _ _ (positions_seq_sorted _ _ _ Hgrid)).
  rewrite Hlen, round_sqrt_square.
  exists (map (drawn N) (Store.pixels s)). split; [| split].
  - destruct (Store.pixels s) eqn:Hp; [| reflexivity].
    simpl in Hlen. nia.
  - rewrite map_map. reflexivity.
  - intros i c Hc. rewrite nth_error_map in Hc.
    destruct (nth_error (Store.pixels s) i) as [p|] eqn:Hp; [| discriminate].
    inversion Hc; subst c. clear Hc. unfold drawn. simpl.
    assert (Hi : (i < N * N)%nat).
    { rewrite <- Hlen. apply nth_error_Some. rewrite Hp. discriminate. }
    assert (Hpos : Pixel.position p = Z.of_nat i).
    { pose proof (map_nth_error Pixel.position _ _ Hp) as Hm.
      rewrite Hgrid in Hm.
      assert (Hseq : nth_error (seq 0 (N * N)) i = Some i).
      { rewrite (nth_error_nth' _ 0%nat) by (now rewrite length_seq).
        now rewrite seq_nth. }
      rewrite (map_nth_error Z.of_nat _ _ Hseq) in Hm. now inversion Hm. }
    rewrite Hpos. assert (HNz : (0 < Z.of_nat N)%Z) by lia.
    rewrite Z.rem_mod_nonneg by lia.
    pose proof (Z.mod_pos_bound (Z.of_nat i) (Z.of_nat N) HNz).
    pose proof (Z.div_mod (Z.of_nat i) (Z.of_nat N)).
    assert (0 <= Z.of_nat i / Z.of_nat N)%Z by (apply Z.div_pos; lia).
    assert (Z.of_nat i / Z.of_nat N < Z.of_nat N)%Z
      by (apply Z.div_lt_upper_bound; nia).
    repeat split; lia.
Qed.

Lemma home_draws_complete_grid_witness :
  exists cells,
    Home.renderCanvas
      (Home.loadData (Replied (fst (Server.all false (seeded 2))))
         (Replied (fst (Server.recent_assignments false (seeded 2))))
         Home.initial)
    = Home.Grid 2 cells
    /\ map Home.color cells = map Pixel.color (Store.pixels (seeded 2))
    /\ forall i c,
         nth_error cells i = Some c ->
         Home.position c = Z.of_nat i
         /\ (0 <= Home.x c < Z.of_nat 2)%Z
         /\ (0 <= Home.y c < Z.of_nat 2)%Z
         /\ Z.of_nat i = (Home.y c * Z.of_nat 2 + Home.x c)%Z.
Proof.
  apply (home_draws_complete_grid 2 (seeded 2) false Home.initial).
  - lia.
  - reflexivity.
Defined.

(** X20: the bare canvas looks at the status of the answer.  When the grid
    read fails it shows the server's error text; when it succeeds it shows
    "No pixels found" for an empty store and otherwise the cells, in the
    order of their positions, on a grid [ceil(sqrt(count))] wide. *)
Theorem simple_canvas_view_of_server (s : Store.t) (grid_fails : bool)
  (st : SimpleCanvas.State) :
  SimpleCanvas.render
    (SimpleCanvas.loadPixels (Replied (fst (Server.all grid_fails s))) st)
  = (if grid_fails then SimpleCanvas.ErrorLoading "Error loading pixels"
     else
       match Store.pixels s with
       | [] => SimpleCanvas.NoPixels
       | _ =>
           SimpleCanvas.Grid
             (SimpleCanvas.ceil_sqrt (List.length (Store.pixels s)))
             (map (fun p => (Pixel._id p, color_or_white (Pixel.color p)))
                (by_position_order (Store.pixels s)))
       end).
Proof.
  destruct grid_fails; [reflexivity |].
  unfold SimpleCanvas.render, SimpleCanvas.loadPixels, Server.all,
    Store.respond. simpl.
  fold (by_position_order (Store.pixels s)).
  destruct (by_position_order (Store.pixels s)) as [|p r] eqn:Hs.
  - apply (f_equal (@List.length _)) in Hs.
    rewrite by_position_order_length in Hs.
    destruct (Store.pixels s); [reflexivity | discriminate].
  - rewrite <- Hs. rewrite by_position_order_length.
    destruct (Store.pixels s) eqn:Hp; [discriminate Hs | reflexivity].
Qed.

(** X21: the width the bare canvas gives its grid is the least that makes
    a square with room for every cell. *)
Theorem ceil_sqrt_is_least_square (total : nat) :
  (0 < total)%nat ->
  let size := SimpleCanvas.ceil_sqrt total in
  (total <= size * size)%nat /\ ((size - 1) * (size - 1) < total)%nat.
Proof.
  intros Hpos size. subst size. unfold SimpleCanvas.ceil_sqrt.
  pose proof (Nat.sqrt_spec total (Nat.le_0_l total)) as [Hlo Hhi].
  assert (0 < Nat.sqrt total)%nat by now apply sqrt_positive.
  destruct (Nat.eqb_spec (Nat.sqrt total * Nat.sqrt total) total) as [E | E].
  - split; [lia |].
    destruct (Nat.sqrt total) as [|k]; [lia |]. simpl in *. nia.
  - split; [simpl in *; lia |]. simpl. rewrite Nat.sub_0_r. lia.
Qed.

Lemma ceil_sqrt_is_least_square_witness :
  (10 <= SimpleCanvas.ceil_sqrt 10 * SimpleCanvas.ceil_sqrt 10)%nat
  /\ ((SimpleCanvas.ceil_sqrt 10 - 1) * (SimpleCanvas.ceil_sqrt 10 - 1) < 10)%nat.
Proof.
  apply (ceil_sqrt_is_least_square 10). lia.
Defined.

(** ** Pricing, in full *)

(** X22: the price of every string.  A colour that, in lower case, is
    [#ffd700] costs 500, one that is [#00ffff] or [#ff00ff] costs 200; the
    two strings that in lower case name a property every object inherits
    get that property instead of a price; every other string, the empty one
    included, costs 50.  The answer does not depend on the case of the
    letters, and the page's mirror gives the same answer as the server. *)
Theorem price_of_every_string (s : string) :
  let k := JS.toLowerCase s in
  Server.getPriceForColor (JS.VString s)
  = (if String.eqb k "#ffd700" then JS.VNumber 500%float
     else if String.eqb k "#00ffff" || String.eqb k "#ff00ff"
          then JS.VNumber 200%float
     else if String.eqb k "constructor" then JS.VFunction "Object"
     else if String.eqb k "__proto__" then JS.VObject "Object.prototype"
     else JS.VNumber 50%float)
  /\ Server.getPriceForColor (JS.VString k)
     = Server.getPriceForColor (JS.VString s)
  /\ Pitch.getPriceForColor s = Server.getPriceForColor (JS.VString s).
Proof.
  intros k. subst k.
  split; [| split; [apply getPriceForColor_case_insensitive
                   | apply getPriceForColor_mirror]].
  unfold Server.getPriceForColor. simpl JS.truthy. simpl JS.typeof.
  destruct (String.eqb_spec s "") as [-> | Hs]; [reflexivity |].
  change (negb (negb false) || negb ("string" =? "string"))%bool with false.
  cbv iota zeta.
  pose proof (toLowerCase_idempotent s) as Hidem.
  revert Hidem. generalize (JS.toLowerCase s) as k. intros k Hidem.
  unfold JS.get, Server.RARE_PRICE_MAP, JS.Object_prototype, JS.lookup.
  repeat match goal with
         | |- context [String.eqb k ?b] =>
             destruct (String.eqb_spec k b) as [E | E];
             [ try (exfalso; rewrite E in Hidem; discriminate Hidem);
               subst k; vm_compute; reflexivity
             | try clear E ]
         end.
  reflexivity.
Qed.

(** ** The Next.js route, its guards *)


(** ** The pitch page's checkout, whatever the answer *)

(** X24: whatever comes back, the pitch page either is sent to an address,
    which happens exactly when the answer is ok and carries a truthy [url],
    that address being this [url], or it stops redirecting and holds a
    truthy error to show; it is never left waiting in silence. *)
Theorem handleCheckout_redirects_or_reports (reading_null : string -> string)
  (st : PitchFlow.State) (answer : Http.Fetched) :
  let after := PitchFlow.handleCheckout reading_null st answer in
  (forall url,
     snd after = Some url
     <-> exists data,
           answer = Http.Parsed true data
           /\ Http.get data "url" = Some url /\ JS.truthy url = true)
  /\ (snd after = None ->
      PitchFlow.isRedirecting (fst after) = false
      /\ JS.truthy (PitchFlow.error (fst after)) = true).
Proof.
  intros after. subst after.
  assert (Hmsg : forall m f, f <> "" ->
             JS.truthy (JS.VString (Http.message_or m f)) = true).
  { intros m f Hf. unfold Http.message_or. simpl.
    destruct (String.eqb_spec m ""); simpl.
    - destruct (String.eqb_spec f ""); [contradiction | reflexivity].
    - destruct (String.eqb_spec m ""); [contradiction | reflexivity]. }
  assert (Hor : forall e, JS.truthy (JS.or e (JS.VString "Error creating checkout session")) = true).
  { intros e. unfold JS.or. destruct (JS.truthy e) eqn:E; [exact E | reflexivity]. }
  unfold PitchFlow.handleCheckout.
  destruct answer as [m | ok | ok data].
  - split.
    + intros url. split; [discriminate | intros [d [H _]]; discriminate].
    + intros _. split; [reflexivity | apply Hmsg; discriminate].
  - split.
    + intros url. split; [discriminate | intros [d [H _]]; discriminate].
    + intros _. split; [reflexivity | apply Hmsg; discriminate].
  - destruct ok; simpl negb; cbv iota.
    + destruct (Http.get data "url") as [u|] eqn:Hu.
      * destruct (JS.truthy u) eqn:Ht; simpl negb; cbv iota.
        -- split.
           ++ intros url. split.
              ** intros H. inversion H; subst. exists data. auto.
              ** intros [d [Hd [Hg _]]]. inversion Hd; subst.
                 rewrite Hu in Hg. inversion Hg; subst. reflexivity.
           ++ discriminate.
        -- split.
           ++ intros url. split.
              ** destruct (Http.get data "error"); discriminate.
              ** intros [d [Hd [Hg Htr]]]. inversion Hd; subst.
                 rewrite Hu in Hg. inversion Hg; subst. congruence.
           ++ intros _. destruct (Http.get data "error") as [e|]; simpl;
                (split; [reflexivity |]); [apply Hor | apply Hmsg; discriminate].
      * split.
        -- intros url. split; [discriminate |].
           intros [d [Hd [Hg _]]]. inversion Hd; subst. congruence.
        -- intros _. split; [reflexivity | apply Hmsg; discriminate].
    + split.
      * intros url. split; [| intros [d [Hd _]]; discriminate].
        destruct (Http.get data "error"); discriminate.
      * intros _. destruct (Http.get data "error") as [e|]; simpl;
          (split; [reflexivity |]); [apply Hor | apply Hmsg; discriminate].
Qed.

(** ** From the assignment to the canvas *)

(** X25: after an answer of 200 the home page, loading the grid from the
    store as the route left it, draws the cell of the reported identity at
    the reported position and coordinates, in the colour that was asked
    for. *)
Theorem assigned_cell_shows_on_canvas (run : Server.Run) (color : JS.value)
  (s : Store.t) (feed_fails : bool) (st : Home.State) (c : string)
  (id : ObjectId) (position x y : Z) :
  fst (Server.assign run color s)
  = Server.json 200 (Server.Assigned c id position x y) ->
  let s' := snd (Server.assign run color s) in
  exists side cells,
    Home.renderCanvas
      (Home.loadData (Replied (fst (Server.all false s')))
         (Replied (fst (Server.recent_assignments feed_fails s'))) st)
    = Home.Grid side cells
    /\ In (Home.make_cell id position x y c c) cells.
Proof.
  intros Hres s'. subst s'.
  destruct (assign_outcomes run color s)
    as [[_ Hno] | [[pixel [c' [_ [_ [_ Heq]]]]] | [pixel [c' [Hp [Hc [_ Heq]]]]]]].
  - rewrite Hres in Hno. now contradiction Hno.
  - rewrite Heq in Hres. discriminate.
  - rewrite Heq in Hres. rewrite Heq. cbn [snd].
    unfold assigned in Hres. injection Hres as Hc' Hid Hpos Hx Hy. subst c'.
    rewrite home_canvas_of_server.
    unfold picked in Hp. apply nth_error_In in Hp.
    assert (Hin : In (Pixel.set_color pixel c)
                    (Store.pixels
                       (logged (painted s pixel c) pixel c (Server.now run)))).
    { simpl. apply in_map_iff. exists pixel. split; [| exact Hp].
      unfold repaint. now rewrite Nat.eqb_refl. }
    assert (Hlen : List.length
                     (Store.pixels
                        (logged (painted s pixel c) pixel c (Server.now run)))
                   = List.length (Store.pixels s)) by apply painted_length.
    rewrite Hlen.
    destruct (Store.pixels (logged (painted s pixel c) pixel c (Server.now run)))
      as [|q r] eqn:Hpx; [contradiction |].
    rewrite <- Hpx in *. do 2 eexists. split; [reflexivity |].
    apply in_map_iff. exists (Pixel.set_color pixel c). split.
    + rewrite <- Hid, <- Hpos, <- Hx, <- Hy. unfold drawn, color_or_white. simpl.
      subst color. pose proof (assign_rejected run (JS.VString c) s) as Hrej.
      destruct c as [|a c0]; [| reflexivity].
      rewrite Hrej in Heq by reflexivity. discriminate.
    + unfold by_position_order.
      apply (Permutation_in _ (Permutation_sym (sort_by_perm _ _))). exact Hin.
Qed.

Lemma assigned_cell_shows_on_canvas_witness :
  exists side cells,
    Home.renderCanvas
      (Home.loadData
         (Replied
            (fst (Server.all false
                    (snd (Server.assign
                            (Server.make_run (Server.fraction 9 10) 1000
                               Server.NoFault)
                            (JS.VString "#aa0000") (seeded 2))))))
         (Replied
            (fst (Server.recent_assignments false
                    (snd (Server.assign
                            (Server.make_run (Server.fraction 9 10) 1000
                               Server.NoFault)
                            (JS.VString "#aa0000") (seeded 2))))))
         Home.initial)
    = Home.Grid side cells
    /\ In (Home.make_cell 4 3 1 1 "#aa0000" "#aa0000") cells.
Proof.
  apply (assigned_cell_shows_on_canvas
           (Server.make_run (Server.fraction 9 10) 1000 Server.NoFault)
           (JS.VString "#aa0000") (seeded 2) false Home.initial
           "#aa0000" 4 3 1 1).
  reflexivity.
Defined.
